(** * sentryos-hackathon: window manager, chat relay endpoint and chat client

    A shallow embedding of
    - [src/components/desktop/WindowManager.tsx] (module [WindowManager]),
    - the chat relay endpoint [POST] (module [Relay]),
    - the stream loop of the chat client's [handleSubmit] (module [Chat]),
    over a small model of JavaScript values, strings and JSON (module
    [JS]), followed by the properties the specification states about
    them (modules [WindowManagerProps], [RelayProps], [ChatProps]).

    Modules [Desktop], [Submit] and [Protocol] embed the icon handlers
    of [Desktop.tsx], the whole of [handleSubmit] and the endpoint as
    the client meets it; the modules whose names end in [Facts] hold
    further properties of the code.

    Conventions.  A React state cell is a record field, and a call of a
    state setter with an updater function is one atomic transition of
    that record.  The numbers of the window manager (stacking indices,
    the counter, pixel geometry) are integers of [Z].  Strings are byte
    strings, the UTF-8 form of the JavaScript string (an unpaired
    surrogate in the three bytes that the scheme gives its code).  Logging and
    metrics calls have no effect on the modelled state and do not
    throw. *)

From Stdlib Require Import List String Ascii ZArith NArith Lia Bool Arith.
From Stdlib Require Import DecimalString.
Import ListNotations.

Local Open Scope string_scope.
Local Open Scope list_scope.

(* ================================================================== *)
(** * Window manager *)
(* ================================================================== *)

Module WindowManager.

Local Open Scope Z_scope.

(** Modelled from the spec: the [WindowState] declaration of [./types],
    which is imported by WindowManager.tsx but is not part of the
    sources.  The fields are the ones the manager and its callers in
    Desktop.tsx read and write; [content] is the opaque payload. *)
Record WindowState := mkWindow {
  id : string;
  title : string;
  icon : string;
  x : Z;
  y : Z;
  width : Z;
  height : Z;
  minWidth : Z;
  minHeight : Z;
  isMinimized : bool;
  isMaximized : bool;
  isFocused : bool;
  zIndex : Z;
  content : string
}.

(** [Omit<WindowState, 'zIndex' | 'isFocused'>], the argument of
    [openWindow]. *)
Record WindowInit := mkInit {
  init_id : string;
  init_title : string;
  init_icon : string;
  init_x : Z;
  init_y : Z;
  init_width : Z;
  init_height : Z;
  init_minWidth : Z;
  init_minHeight : Z;
  init_isMinimized : bool;
  init_isMaximized : bool;
  init_content : string
}.

(** The two state cells of [WindowManagerProvider]. *)
Record Manager := mkManager {
  windows : list WindowState;
  topZIndex : Z
}.

(** [useState([])] and [useState(100)]. *)
Definition initial : Manager := {| windows := []; topZIndex := 100 |}.

(** ** Object spreads *)

(** [{ ...w, isFocused: b }] *)
Definition with_focus (b : bool) (w : WindowState) : WindowState :=
  mkWindow (id w) (title w) (icon w) (x w) (y w) (width w) (height w)
           (minWidth w) (minHeight w) (isMinimized w) (isMaximized w)
           b (zIndex w) (content w).

(** [{ ...w, isFocused: true, zIndex: newZ }] *)
Definition raised (newZ : Z) (w : WindowState) : WindowState :=
  mkWindow (id w) (title w) (icon w) (x w) (y w) (width w) (height w)
           (minWidth w) (minHeight w) (isMinimized w) (isMaximized w)
           true newZ (content w).

(** [{ ...w, isMinimized: false, isFocused: true, zIndex: newZ }] *)
Definition unminimized (newZ : Z) (w : WindowState) : WindowState :=
  mkWindow (id w) (title w) (icon w) (x w) (y w) (width w) (height w)
           (minWidth w) (minHeight w) false (isMaximized w)
           true newZ (content w).

(** [{ ...w, isMinimized: true, isFocused: false }] *)
Definition minimized (w : WindowState) : WindowState :=
  mkWindow (id w) (title w) (icon w) (x w) (y w) (width w) (height w)
           (minWidth w) (minHeight w) true (isMaximized w)
           false (zIndex w) (content w).

(** [{ ...w, isMaximized: !w.isMaximized }] *)
Definition toggled (w : WindowState) : WindowState :=
  mkWindow (id w) (title w) (icon w) (x w) (y w) (width w) (height w)
           (minWidth w) (minHeight w) (isMinimized w)
           (negb (isMaximized w)) (isFocused w) (zIndex w) (content w).

(** [{ ...w, x, y }] *)
Definition moved (nx ny : Z) (w : WindowState) : WindowState :=
  mkWindow (id w) (title w) (icon w) nx ny (width w) (height w)
           (minWidth w) (minHeight w) (isMinimized w) (isMaximized w)
           (isFocused w) (zIndex w) (content w).

(** [{ ...w, width, height }] *)
Definition resized (nw nh : Z) (w : WindowState) : WindowState :=
  mkWindow (id w) (title w) (icon w) (x w) (y w) nw nh
           (minWidth w) (minHeight w) (isMinimized w) (isMaximized w)
           (isFocused w) (zIndex w) (content w).

(** [{ ...window, zIndex: newZ, isFocused: true }] *)
Definition created (newZ : Z) (i : WindowInit) : WindowState :=
  mkWindow (init_id i) (init_title i) (init_icon i) (init_x i) (init_y i)
           (init_width i) (init_height i) (init_minWidth i)
           (init_minHeight i) (init_isMinimized i) (init_isMaximized i)
           true newZ (init_content i).

(** [w.id === i] *)
Definition has_id (i : string) (w : WindowState) : bool := String.eqb (id w) i.

(** [w => w.id === i ? g(w) : { ...w, isFocused: false }], the callback
    that [restoreWindow], [focusWindow] and the re-open branches of
    [openWindow] map over the registry. *)
Definition refocus (i : string) (g : WindowState -> WindowState)
    (w : WindowState) : WindowState :=
  if has_id i w then g w else with_focus false w.

(** ** The eight operations *)

Definition openWindow (window : WindowInit) (m : Manager) : Manager :=
  let newZ := topZIndex m + 1 in
  let prev := windows m in
  {| windows :=
       match find (has_id (init_id window)) prev with
       | Some existing =>
           if isMinimized existing
           then map (fun w => if has_id (init_id window) w
                              then unminimized newZ w
                              else with_focus false w) prev
           else map (fun w => if has_id (init_id window) w
                              then raised newZ w
                              else with_focus false w) prev
       | None => map (with_focus false) prev ++ [created newZ window]
       end;
     topZIndex := newZ |}.

Definition closeWindow (i : string) (m : Manager) : Manager :=
  {| windows := filter (fun w => negb (has_id i w)) (windows m);
     topZIndex := topZIndex m |}.

Definition minimizeWindow (i : string) (m : Manager) : Manager :=
  {| windows := map (fun w => if has_id i w then minimized w else w) (windows m);
     topZIndex := topZIndex m |}.

Definition maximizeWindow (i : string) (m : Manager) : Manager :=
  {| windows := map (fun w => if has_id i w then toggled w else w) (windows m);
     topZIndex := topZIndex m |}.

Definition restoreWindow (i : string) (m : Manager) : Manager :=
  let newZ := topZIndex m + 1 in
  {| windows := map (fun w => if has_id i w
                              then unminimized newZ w
                              else with_focus false w) (windows m);
     topZIndex := newZ |}.

Definition focusWindow (i : string) (m : Manager) : Manager :=
  let newZ := topZIndex m + 1 in
  {| windows := map (fun w => if has_id i w
                              then raised newZ w
                              else with_focus false w) (windows m);
     topZIndex := newZ |}.

Definition updateWindowPosition (i : string) (nx ny : Z) (m : Manager) : Manager :=
  {| windows := map (fun w => if has_id i w then moved nx ny w else w) (windows m);
     topZIndex := topZIndex m |}.

Definition updateWindowSize (i : string) (nw nh : Z) (m : Manager) : Manager :=
  {| windows := map (fun w => if has_id i w then resized nw nh w else w) (windows m);
     topZIndex := topZIndex m |}.

(** ** Sequences of operations *)

Inductive Op :=
| Open (window : WindowInit)
| Close (i : string)
| Minimize (i : string)
| Maximize (i : string)
| Restore (i : string)
| Focus (i : string)
| Move (i : string) (nx ny : Z)
| Resize (i : string) (nw nh : Z).

Definition apply (m : Manager) (o : Op) : Manager :=
  match o with
  | Open window => openWindow window m
  | Close i => closeWindow i m
  | Minimize i => minimizeWindow i m
  | Maximize i => maximizeWindow i m
  | Restore i => restoreWindow i m
  | Focus i => focusWindow i m
  | Move i nx ny => updateWindowPosition i nx ny m
  | Resize i nw nh => updateWindowSize i nw nh m
  end.

Definition run (m : Manager) (ops : list Op) : Manager := fold_left apply ops m.

(** ** Observations *)

Definition focused_count (ws : list WindowState) : nat :=
  List.length (filter isFocused ws).

Definition at_most_one_focused (m : Manager) : Prop :=
  (focused_count (windows m) <= 1)%nat.

Definition ids (ws : list WindowState) : list string := map id ws.

Definition present (i : string) (m : Manager) : bool :=
  existsb (has_id i) (windows m).

(** Everything about a window except the two fields the focus-causing
    operations write. *)
Definition same_geometry (a b : WindowState) : Prop :=
  x a = x b /\ y a = y b /\ width a = width b /\ height a = height b /\
  minWidth a = minWidth b /\ minHeight a = minHeight b.

(** The parts of the registry invariant. *)
Definition distinct_ids (m : Manager) : Prop := NoDup (ids (windows m)).

Definition bounded_by_top (m : Manager) : Prop :=
  Forall (fun w => zIndex w <= topZIndex m) (windows m).

Definition distinct_stacking (m : Manager) : Prop :=
  NoDup (map zIndex (windows m)).

(** ** Sample registries *)

Definition sample_init (i : string) : WindowInit :=
  mkInit i "Install Guide.md" "doc" 100 50 600 500 400 300 false false "notepad".

Definition sample_window (i : string) (focused : bool) (z : Z) : WindowState :=
  mkWindow i "SentryOS Chat" "chat" 200 80 500 550 350 400 false false focused z "chat".

(** Two records, both focused. *)
Definition both_focused : Manager :=
  {| windows := [sample_window "chat" true 101; sample_window "notes" true 102];
     topZIndex := 102 |}.

(** One focused window, as left by a single [openWindow]. *)
Definition one_open : Manager :=
  {| windows := [sample_window "chat" true 101]; topZIndex := 101 |}.

(** Two windows opened one after the other. *)
Definition two_opened : list Op :=
  [Open (sample_init "notes"); Open (sample_init "chat")].

Definition sample_ops : list Op :=
  [Open (sample_init "install-guide"); Open (sample_init "chat");
   Focus "install-guide"; Minimize "install-guide"; Open (sample_init "install-guide");
   Maximize "chat"; Move "chat" 10 20; Restore "chat"; Close "install-guide";
   Focus "gone"; Resize "chat" 640 480].

(** ** Further observations *)

(** The operations that call [setTopZIndex]. *)
Definition focus_causing (o : Op) : bool :=
  match o with
  | Open _ | Restore _ | Focus _ => true
  | _ => false
  end.

(** A focused record carries the counter as its stacking index. *)
Definition focused_on_top (m : Manager) : Prop :=
  Forall (fun w => isFocused w = true -> zIndex w = topZIndex m) (windows m).

(** The identifiers after an operation, from the ones before. *)
Definition ids_after (o : Op) (before : list string) : list string :=
  match o with
  | Open window =>
      if existsb (String.eqb (init_id window)) before
      then before
      else before ++ [init_id window]
  | Close i => filter (fun j => negb (String.eqb j i)) before
  | _ => before
  end.

End WindowManager.

(* ================================================================== *)
(** * Desktop icons *)
(* ================================================================== *)

Module Desktop.
Import WindowManager.
Local Open Scope Z_scope.

(** The three icons of [DesktopContent]. *)
Inductive Icon :=
| InstallGuide
| AgentsFolder
| ChatIcon.

(** The record each double-click handler passes to [openWindow]
    ([openInstallGuide], [openAgentsFolder], [openChatWindow]); the
    element under [content] is named by its component. *)
Definition app (icon : Icon) : WindowInit :=
  match icon with
  | InstallGuide =>
      mkInit "install-guide" "Install Guide.md" "📄" 100 50 600 500 400 300
             false false "Notepad"
  | AgentsFolder =>
      mkInit "agents-folder" "Agents" "📁" 150 100 400 350 300 250
             false false "FolderView"
  | ChatIcon =>
      mkInit "chat" "SentryOS Chat" "💬" 200 80 500 550 350 400
             false false "Chat"
  end.

(** What the desktop lets its user do: double-click an icon, or act on
    a window through one of the other seven operations. *)
Inductive Action :=
| DoubleClick (icon : Icon)
| Manage (o : Op).

Definition allowed (a : Action) : bool :=
  match a with
  | Manage (Open _) => false
  | _ => true
  end.

Definition operation (a : Action) : Op :=
  match a with
  | DoubleClick icon => Open (app icon)
  | Manage o => o
  end.

Definition app_ids : list string := ["install-guide"; "agents-folder"; "chat"].

Definition sample_session : list Action :=
  [DoubleClick ChatIcon; DoubleClick InstallGuide; Manage (Minimize "chat");
   DoubleClick ChatIcon; DoubleClick ChatIcon; Manage (Close "install-guide");
   DoubleClick AgentsFolder; DoubleClick InstallGuide].

End Desktop.

(* ================================================================== *)
(** * JavaScript values, strings and JSON *)
(* ================================================================== *)

Module JS.

Local Open Scope string_scope.
#[local] Set Warnings "-register-all".

(** ** Values *)

(** The values [JSON.parse] can return.  A number is carried by its
    canonical decimal rendering, the string [Number.prototype.toString]
    gives for it.  [undefined] is [None] of [option value]. *)
Inductive value :=
| Null
| Bool (b : bool)
| Num (repr : string)
| Str (s : string)
| Arr (items : list value)
| Obj (fields : list (string * value)).

Fixpoint assoc (key : string) (fields : list (string * value)) : option value :=
  match fields with
  | [] => None
  | (k, v) :: rest => if String.eqb k key then Some v else assoc key rest
  end.

(** [v.key] for a [v] that is not [null], and for the keys this program
    reads ([messages], [role], [content], [type], [text], [tool],
    [elapsed]): only an object can carry one of them. *)
Definition get (key : string) (v : value) : option value :=
  match v with
  | Obj fields => assoc key fields
  | _ => None
  end.

(** [v === s] for a string literal [s]. *)
Definition is_string (s : string) (v : option value) : bool :=
  match v with
  | Some (Str t) => String.eqb t s
  | _ => false
  end.

(** [!!v] *)
Definition truthy (v : option value) : bool :=
  match v with
  | None => false
  | Some Null => false
  | Some (Bool b) => b
  | Some (Num repr) => negb (String.eqb repr "0" || String.eqb repr "NaN")
  | Some (Str s) => negb (String.eqb s "")
  | Some (Arr _) => true
  | Some (Obj _) => true
  end.

Definition isArray (v : option value) : bool :=
  match v with
  | Some (Arr _) => true
  | _ => false
  end.

(** [xs.join(sep)] on strings. *)
Fixpoint join (sep : string) (xs : list string) : string :=
  match xs with
  | [] => ""
  | [x] => x
  | x :: rest => x ++ sep ++ join sep rest
  end.

Fixpoint sequence {A} (xs : list (option A)) : option (list A) :=
  match xs with
  | [] => Some []
  | None :: _ => None
  | Some x :: rest =>
      match sequence rest with
      | Some ys => Some (x :: ys)
      | None => None
      end
  end.

(** [ToString(v)] as a template literal and [+=] on a string apply it;
    [None] is the [TypeError] of an object whose own [toString] entry
    hides the inherited method.  An array renders as its elements
    joined by a comma, [null] elements as the empty string. *)
Fixpoint ToString (v : value) : option string :=
  match v with
  | Null => Some "null"
  | Bool true => Some "true"
  | Bool false => Some "false"
  | Num repr => Some repr
  | Str s => Some s
  | Arr items =>
      match sequence (map (fun item => match item with
                                       | Null => Some ""
                                       | _ => ToString item
                                       end) items) with
      | Some parts => Some (join "," parts)
      | None => None
      end
  | Obj fields =>
      match assoc "toString" fields with
      | Some _ => None
      | None => Some "[object Object]"
      end
  end.

Definition ToString_opt (v : option value) : option string :=
  match v with
  | None => Some "undefined"
  | Some w => ToString w
  end.

(** ** Strings *)

(** Line feed, double quote and backslash. *)
Definition LF : ascii := "010"%char.
Definition DQ : ascii := "034"%char.
Definition BSL : ascii := "092"%char.

(** [s.split('\n')] *)
Fixpoint split_lines (s : string) : list string :=
  match s with
  | EmptyString => [""]
  | String c rest =>
      if Ascii.eqb c LF then "" :: split_lines rest
      else match split_lines rest with
           | line :: lines => String c line :: lines
           | [] => [String c ""]
           end
  end.

(** [s.startsWith(p)] *)
Definition startsWith (p s : string) : bool := String.prefix p s.

(** [s.slice(n)] for [n >= 0] *)
Fixpoint slice (n : nat) (s : string) : string :=
  match n, s with
  | O, _ => s
  | S k, String _ rest => slice k rest
  | S _, EmptyString => EmptyString
  end.

Fixpoint list_prefix (p l : list ascii) : bool :=
  match p, l with
  | [], _ => true
  | a :: p', b :: l' => Ascii.eqb a b && list_prefix p' l'
  | _ :: _, [] => false
  end.

(** [s.endsWith(p)] *)
Definition endsWith (p s : string) : bool :=
  list_prefix (rev (list_ascii_of_string p)) (rev (list_ascii_of_string s)).

Definition nl : string := String LF "".

(** ** JSON.stringify *)

Definition hex_digit (n : N) : ascii :=
  match n with
  | 0 => "0" | 1 => "1" | 2 => "2" | 3 => "3" | 4 => "4" | 5 => "5"
  | 6 => "6" | 7 => "7" | 8 => "8" | 9 => "9" | 10 => "a" | 11 => "b"
  | 12 => "c" | 13 => "d" | 14 => "e" | _ => "f"
  end%N%char.

(** One character of [QuoteJSONString]. *)
Definition quote_char (c : ascii) : string :=
  let n := N_of_ascii c in
  if Ascii.eqb c DQ then String BSL (String DQ "")
  else if Ascii.eqb c BSL then String BSL (String BSL "")
  else if N.eqb n 8 then String BSL "b"
  else if N.eqb n 9 then String BSL "t"
  else if N.eqb n 10 then String BSL "n"
  else if N.eqb n 12 then String BSL "f"
  else if N.eqb n 13 then String BSL "r"
  else if N.ltb n 32
       then String BSL ("u00" ++ String (hex_digit (n / 16)) (String (hex_digit (n mod 16)) ""))
       else String c "".

Fixpoint quote_chars (s : string) : string :=
  match s with
  | EmptyString => EmptyString
  | String c rest => quote_char c ++ quote_chars rest
  end.

Definition quote (s : string) : string :=
  String DQ (quote_chars s ++ String DQ "").

(** [JSON.stringify(v)]; a number that is not finite renders as [null]. *)
Fixpoint JSON_stringify (v : value) : string :=
  match v with
  | Null => "null"
  | Bool true => "true"
  | Bool false => "false"
  | Num repr =>
      if String.eqb repr "NaN" || String.eqb repr "Infinity"
         || String.eqb repr "-Infinity"
      then "null" else repr
  | Str s => quote s
  | Arr items => "[" ++ join "," (map JSON_stringify items) ++ "]"
  | Obj fields =>
      "{" ++ join "," (map (fun kv => quote (fst kv) ++ ":" ++ JSON_stringify (snd kv))
                           fields) ++ "}"
  end.

(** ** JSON.parse

    A reader for the JSON grammar of ECMA-404.  [None] is the
    [SyntaxError].  A numeral is rounded to the nearest double and
    rendered as [Number.prototype.toString] renders that double; a
    [\u] escape is decoded to UTF-8, a surrogate pair to the one
    character it denotes, and an unpaired surrogate, which JavaScript
    keeps as a code unit of the string, to the three bytes that the
    UTF-8 scheme gives its code. *)

Definition is_ws (c : ascii) : bool :=
  let n := N_of_ascii c in
  (N.eqb n 32 || N.eqb n 9 || N.eqb n 10 || N.eqb n 13)%bool.

Fixpoint skip_ws (s : string) : string :=
  match s with
  | String c rest => if is_ws c then skip_ws rest else s
  | EmptyString => s
  end.

Definition is_digit (c : ascii) : bool :=
  let n := N_of_ascii c in (N.leb 48 n && N.leb n 57)%bool.

Fixpoint take_digits (s : string) : string * string :=
  match s with
  | String c rest =>
      if is_digit c
      then let (digits, r) := take_digits rest in (String c digits, r)
      else (EmptyString, s)
  | EmptyString => (EmptyString, EmptyString)
  end.

Fixpoint digits_value (acc : N) (s : string) : N :=
  match s with
  | String c rest => digits_value (10 * acc + (N_of_ascii c - 48))%N rest
  | EmptyString => acc
  end.

Fixpoint strip_zeros (s : string) : string :=
  match s with
  | String c rest => if Ascii.eqb c "0" then strip_zeros rest else s
  | EmptyString => s
  end.

Definition string_rev (s : string) : string :=
  string_of_list_ascii (rev (list_ascii_of_string s)).

Fixpoint zeros (n : nat) : string :=
  match n with
  | O => EmptyString
  | S k => String "0" (zeros k)
  end.

Definition decimal (n : N) : string := NilZero.string_of_uint (N.to_uint n).

(** [Number::toString] for the value [s * 10 ^ (n - k)], where [s] has
    [k] digits, the first and the last of them not zero. *)
Definition render_digits (s : string) (n : Z) : string :=
  let k := Z.of_nat (String.length s) in
  if ((k <=? n) && (n <=? 21))%Z%bool
  then s ++ zeros (Z.to_nat (n - k))
  else if ((0 <? n) && (n <=? 21))%Z%bool
  then substring 0 (Z.to_nat n) s ++ "." ++ slice (Z.to_nat n) s
  else if ((-6 <? n) && (n <=? 0))%Z%bool
  then "0." ++ zeros (Z.to_nat (- n)) ++ s
  else
    let e := (n - 1)%Z in
    let tail := "e" ++ (if (e <? 0)%Z then "-" else "+") ++ decimal (Z.abs_N e) in
    match s with
    | String d EmptyString => String d tail
    | String d more => String d ("." ++ more ++ tail)
    | EmptyString => tail
    end.

(** [num / den * base ^ (- e)] as a fraction. *)
Definition scaled (base num den e : Z) : Z * Z :=
  (if 0 <=? e then (num, den * base ^ e) else (num * base ^ (- e), den))%Z.

(** The largest [e] with [base ^ e <= num / den], for a [guess] within
    one of it. *)
Definition floor_log (base num den guess : Z) : Z :=
  let at_least e := let (a, b) := scaled base num den e in (b <=? a)%Z in
  (if at_least (guess + 1) then guess + 1
   else if at_least guess then guess
   else guess - 1)%Z.

(** The integer nearest to [a / b], a tie going to the even one. *)
Definition round_half_even (a b : Z) : Z :=
  (let q := a / b in
   let r := a mod b in
   if 2 * r <? b then q
   else if b <? 2 * r then q + 1
   else if Z.even q then q else q + 1)%Z.

(** The Number value of the positive real [num / den]: the nearest
    double, a tie going to the even significand.  [Some (m, p)] is the
    double [m * 2 ^ p], with [2 ^ 52 <= m < 2 ^ 53], or [m < 2 ^ 52]
    and [p = -1074] for a subnormal or zero; [None] is [Infinity]. *)
Definition to_double (num den : Z) : option (Z * Z) :=
  (let e := floor_log 2 num den (Z.log2 num - Z.log2 den) in
   let p := Z.max (e - 52) (-1074) in
   let (a, b) := scaled 2 num den p in
   let m := round_half_even a b in
   let (m, p) := if m =? 2 ^ 53 then (2 ^ 52, p + 1) else (m, p) in
   if 971 <? p then None else Some (m, p))%Z.

Definition is_double (m p num den : Z) : bool :=
  match to_double num den with
  | Some (m', p') => ((m' =? m) && (p' =? p))%Z%bool
  | None => false
  end.

(** The digits of [Number::toString] for the double [m * 2 ^ p], which
    lies between [10 ^ (n - 1)] and [10 ^ n]: the least [k] and an [s]
    with [s * 10 ^ (n - k)] of Number value that double, the nearest
    such [s] when there are two. *)
Fixpoint shortest (fuel : nat) (k m p n : Z) : Z * Z :=
  let (num, den) := scaled 2 m 1 (- p) in
  let (a, b) := scaled 10 num den (n - k) in
  let low := (a / b)%Z in
  let high := (low + 1)%Z in
  let denotes s := let (c, d) := scaled 10 s 1 (k - n) in is_double m p c d in
  let nearest := (if 2 * (a mod b) <? b then low
                  else if b <? 2 * (a mod b) then high
                  else if Z.even low then low else high)%Z in
  match fuel with
  | O => (low, k)
  | S f =>
      if (denotes low && denotes high)%bool then (nearest, k)
      else if denotes low then (low, k)
      else if denotes high then (high, k)
      else shortest f (k + 1)%Z m p n
  end.

(** [Number::toString] of the positive double [m * 2 ^ p]. *)
Definition Number_toString (m p : Z) : string :=
  let (num, den) := scaled 2 m 1 (- p) in
  let n := (floor_log 10 num den (((Z.log2 num - Z.log2 den) * 30103) / 100000) + 1)%Z in
  let (s, k) := shortest 17 1 m p n in
  let digits := decimal (Z.to_N s) in
  let significant := string_rev (strip_zeros (string_rev digits)) in
  render_digits significant (n + Z.of_nat (String.length digits) - k).

(** The numeral [int.frac e exp] as a Number, in its rendering.  A
    numeral of [magnitude] digits before the point is beyond the
    largest double above 310 and below half the least one under -330. *)
Definition render_number (negative : bool) (int frac : string) (exp : Z) : string :=
  let digits := strip_zeros (int ++ frac) in
  let sign := if negative then "-" else "" in
  let e10 := (exp - Z.of_nat (String.length frac))%Z in
  let magnitude := (Z.of_nat (String.length digits) + e10)%Z in
  match digits with
  | EmptyString => "0"
  | _ =>
      if (310 <? magnitude)%Z then sign ++ "Infinity"
      else if (magnitude <? -330)%Z then "0"
      else
        let (num, den) := scaled 10 (Z.of_N (digits_value 0 digits)) 1 (- e10) in
        match to_double num den with
        | None => sign ++ "Infinity"
        | Some (m, p) => if (m =? 0)%Z then "0" else sign ++ Number_toString m p
        end
  end.

Definition lex_number (s : string) : option (string * string) :=
  let (negative, s1) :=
    match s with
    | String "-" r => (true, r)
    | _ => (false, s)
    end in
  let (int, s2) := take_digits s1 in
  match int with
  | EmptyString => None
  | String "0" (String _ _) => None
  | _ =>
      let fraction :=
        match s2 with
        | String "." r =>
            let (frac, s3) := take_digits r in
            match frac with
            | EmptyString => None
            | _ => Some (frac, s3)
            end
        | _ => Some (EmptyString, s2)
        end in
      match fraction with
      | None => None
      | Some (frac, s3) =>
          let exponent :=
            match s3 with
            | String c r =>
                if (Ascii.eqb c "e" || Ascii.eqb c "E")%bool
                then
                  let (minus, r1) :=
                    match r with
                    | String "-" r' => (true, r')
                    | String "+" r' => (false, r')
                    | _ => (false, r)
                    end in
                  let (ds, s4) := take_digits r1 in
                  match ds with
                  | EmptyString => None
                  | _ => let e := Z.of_N (digits_value 0 ds) in
                         Some (if minus then (- e)%Z else e, s4)
                  end
                else Some (0%Z, s3)
            | EmptyString => Some (0%Z, s3)
            end in
          match exponent with
          | None => None
          | Some (e, s4) => Some (render_number negative int frac e, s4)
          end
      end
  end.

(** A character of a string literal: a byte of the text or the code
    unit of a [\u] escape. *)
Inductive code_unit :=
| Byte (c : ascii)
| Escaped (n : N).

Definition hex_value (c : ascii) : option N :=
  let n := N_of_ascii c in
  if (N.leb 48 n && N.leb n 57)%bool then Some (n - 48)%N
  else if (N.leb 97 n && N.leb n 102)%bool then Some (n - 87)%N
  else if (N.leb 65 n && N.leb n 70)%bool then Some (n - 55)%N
  else None.

Definition hex4 (a b c d : ascii) : option N :=
  match hex_value a, hex_value b, hex_value c, hex_value d with
  | Some w, Some x, Some y, Some z => Some (((w * 16 + x) * 16 + y) * 16 + z)%N
  | _, _, _, _ => None
  end.

Definition simple_escape (c : ascii) : option ascii :=
  if Ascii.eqb c DQ then Some DQ
  else if Ascii.eqb c BSL then Some BSL
  else if Ascii.eqb c "/" then Some "/"%char
  else if Ascii.eqb c "b" then Some "008"%char
  else if Ascii.eqb c "f" then Some "012"%char
  else if Ascii.eqb c "n" then Some "010"%char
  else if Ascii.eqb c "r" then Some "013"%char
  else if Ascii.eqb c "t" then Some "009"%char
  else None.

Definition cons_unit (u : code_unit) (r : option (list code_unit * string))
  : option (list code_unit * string) :=
  match r with
  | Some (us, rest) => Some (u :: us, rest)
  | None => None
  end.

(** The characters after an opening quote, up to the closing one. *)
Fixpoint lex_string (s : string) : option (list code_unit * string) :=
  match s with
  | EmptyString => None
  | String c rest =>
      if Ascii.eqb c DQ then Some ([], rest)
      else if Ascii.eqb c BSL then
        match rest with
        | String e rest1 =>
            match simple_escape e with
            | Some b => cons_unit (Byte b) (lex_string rest1)
            | None =>
                if Ascii.eqb e "u" then
                  match rest1 with
                  | String h1 (String h2 (String h3 (String h4 rest2))) =>
                      match hex4 h1 h2 h3 h4 with
                      | Some n => cons_unit (Escaped n) (lex_string rest2)
                      | None => None
                      end
                  | _ => None
                  end
                else None
            end
        | EmptyString => None
        end
      else if N.ltb (N_of_ascii c) 32 then None
      else cons_unit (Byte c) (lex_string rest)
  end.

Definition byte (n : N) : ascii := ascii_of_N n.

Definition utf8 (cp : N) : string :=
  (if cp <? 128 then String (byte cp) ""
   else if cp <? 2048
   then String (byte (192 + cp / 64)) (String (byte (128 + cp mod 64)) "")
   else if cp <? 65536
   then String (byte (224 + cp / 4096))
          (String (byte (128 + (cp / 64) mod 64))
             (String (byte (128 + cp mod 64)) ""))
   else String (byte (240 + cp / 262144))
          (String (byte (128 + (cp / 4096) mod 64))
             (String (byte (128 + (cp / 64) mod 64))
                (String (byte (128 + cp mod 64)) ""))))%N.

Definition is_high (n : N) : bool := (N.leb 55296 n && N.leb n 56319)%bool.
Definition is_low (n : N) : bool := (N.leb 56320 n && N.leb n 57343)%bool.

Fixpoint decode_units (us : list code_unit) : string :=
  match us with
  | [] => EmptyString
  | Byte c :: rest => String c (decode_units rest)
  | Escaped n :: rest =>
      if is_high n then
        match rest with
        | Escaped m :: rest' =>
            if is_low m
            then utf8 (65536 + (n - 55296) * 1024 + (m - 56320))%N ++ decode_units rest'
            else utf8 n ++ decode_units rest
        | _ => utf8 n ++ decode_units rest
        end
      else utf8 n ++ decode_units rest
  end.

(** [CreateDataProperty]: a repeated key keeps its place and takes the
    later value. *)
Fixpoint set_field (key : string) (v : value) (fields : list (string * value))
  : list (string * value) :=
  match fields with
  | [] => [(key, v)]
  | (k, w) :: rest =>
      if String.eqb k key then (k, v) :: rest else (k, w) :: set_field key v rest
  end.

Definition literal (word : string) (v : value) (s : string) : option (value * string) :=
  if String.prefix word s then Some (v, slice (String.length word) s) else None.

Fixpoint parse_value (fuel : nat) (s : string) : option (value * string) :=
  match fuel with
  | O => None
  | S f =>
      let s0 := skip_ws s in
      match s0 with
      | EmptyString => None
      | String c rest =>
          if Ascii.eqb c "{" then
            match skip_ws rest with
            | String "}" r => Some (Obj [], r)
            | _ => parse_members f [] rest
            end
          else if Ascii.eqb c "[" then
            match skip_ws rest with
            | String "]" r => Some (Arr [], r)
            | _ => parse_elements f [] rest
            end
          else if Ascii.eqb c DQ then
            match lex_string rest with
            | Some (us, r) => Some (Str (decode_units us), r)
            | None => None
            end
          else if (Ascii.eqb c "-" || is_digit c)%bool then
            match lex_number s0 with
            | Some (repr, r) => Some (Num repr, r)
            | None => None
            end
          else if Ascii.eqb c "t" then literal "true" (Bool true) s0
          else if Ascii.eqb c "f" then literal "false" (Bool false) s0
          else if Ascii.eqb c "n" then literal "null" Null s0
          else None
      end
  end
with parse_elements (fuel : nat) (acc : list value) (s : string)
  : option (value * string) :=
  match fuel with
  | O => None
  | S f =>
      match parse_value f s with
      | Some (v, r) =>
          match skip_ws r with
          | String "," r' => parse_elements f (v :: acc) r'
          | String "]" r' => Some (Arr (rev (v :: acc)), r')
          | _ => None
          end
      | None => None
      end
  end
with parse_members (fuel : nat) (acc : list (string * value)) (s : string)
  : option (value * string) :=
  match fuel with
  | O => None
  | S f =>
      match skip_ws s with
      | String c r =>
          if Ascii.eqb c DQ then
            match lex_string r with
            | Some (us, r1) =>
                match skip_ws r1 with
                | String ":" r2 =>
                    match parse_value f r2 with
                    | Some (v, r3) =>
                        let fields := set_field (decode_units us) v acc in
                        match skip_ws r3 with
                        | String "," r4 => parse_members f fields r4
                        | String "}" r4 => Some (Obj fields, r4)
                        | _ => None
                        end
                    | None => None
                    end
                | _ => None
                end
            | None => None
            end
          else None
      | EmptyString => None
      end
  end.

(** The fuel bounds the depth of the calls: of two calls in a row at
    least one consumes a character of the text. *)
Definition JSON_parse (text : string) : option value :=
  match parse_value (2 * String.length text + 2) text with
  | Some (v, rest) =>
      match skip_ws rest with
      | EmptyString => Some v
      | _ => None
      end
  | None => None
  end.

(** ** String.prototype.trim

    White space and line terminators of ECMAScript, as the byte
    sequences of their UTF-8 forms: TAB, LF, VT, FF, CR, SP; U+00A0;
    U+1680, U+2000 to U+200A, U+2028, U+2029, U+202F, U+205F, U+3000
    and U+FEFF. *)

Definition ws1 (a : ascii) : bool :=
  let n := N_of_ascii a in
  (N.leb 9 n && N.leb n 13 || N.eqb n 32)%bool.

Definition ws2 (a b : ascii) : bool :=
  (N.eqb (N_of_ascii a) 194 && N.eqb (N_of_ascii b) 160)%bool.

Definition ws3 (a b c : ascii) : bool :=
  let x := N_of_ascii a in
  let y := N_of_ascii b in
  let z := N_of_ascii c in
  (N.eqb x 225 && N.eqb y 154 && N.eqb z 128
   || N.eqb x 226 && N.eqb y 128
      && (N.leb 128 z && N.leb z 138 || N.eqb z 168 || N.eqb z 169 || N.eqb z 175)
   || N.eqb x 226 && N.eqb y 129 && N.eqb z 159
   || N.eqb x 227 && N.eqb y 128 && N.eqb z 128
   || N.eqb x 239 && N.eqb y 187 && N.eqb z 191)%bool.

(** [s.trimStart()] *)
Fixpoint trimStart (s : string) : string :=
  match s with
  | String a r1 =>
      if ws1 a then trimStart r1
      else
        match r1 with
        | String b r2 =>
            if ws2 a b then trimStart r2
            else
              match r2 with
              | String c r3 => if ws3 a b c then trimStart r3 else s
              | EmptyString => s
              end
        | EmptyString => s
        end
  | EmptyString => s
  end.

(** [trimStart] on the reversed string, where the bytes of a character
    come last byte first. *)
Fixpoint trimStart_reversed (s : string) : string :=
  match s with
  | String a r1 =>
      if ws1 a then trimStart_reversed r1
      else
        match r1 with
        | String b r2 =>
            if ws2 b a then trimStart_reversed r2
            else
              match r2 with
              | String c r3 => if ws3 c b a then trimStart_reversed r3 else s
              | EmptyString => s
              end
        | EmptyString => s
        end
  | EmptyString => s
  end.

(** [s.trimEnd()] *)
Definition trimEnd (s : string) : string :=
  string_rev (trimStart_reversed (string_rev s)).

(** [s.trim()] *)
Definition trim (s : string) : string := trimEnd (trimStart s).

(** ** Lines and fields *)

(** [s.includes('\n')] *)
Fixpoint has_LF (s : string) : bool :=
  match s with
  | EmptyString => false
  | String c rest => (Ascii.eqb c LF || has_LF rest)%bool
  end.

(** The text of one entry of an object in [JSON_stringify]. *)
Definition field_text (kv : string * value) : string :=
  quote (fst kv) ++ ":" ++ JSON_stringify (snd kv).

(** An entry whose value is a string. *)
Definition str_field (kv : string * string) : string * value :=
  (fst kv, Str (snd kv)).

End JS.

(* ================================================================== *)
(** * Chat relay endpoint *)
(* ================================================================== *)

Module Relay.
Import JS.
Local Open Scope string_scope.

Definition SYSTEM_PROMPT : string :=
"You are a helpful personal assistant designed to help with general research, questions, and tasks.

Your role is to:
- Answer questions on any topic accurately and thoroughly
- Help with research by searching the web for current information
- Assist with writing, editing, and brainstorming
- Provide explanations and summaries of complex topics
- Help solve problems and think through decisions

Guidelines:
- Be friendly, clear, and conversational
- Use web search when you need current information, facts you're unsure about, or real-time data
- Keep responses concise but complete - expand when the topic warrants depth
- Use markdown formatting when it helps readability (bullet points, code blocks, etc.)
- Be honest when you don't know something and offer to search for answers".

(** ** Exceptions *)

(** A computation of the [try] block: a value, or a thrown exception. *)
Inductive result (A : Type) :=
| Ok (a : A)
| Throw.
Arguments Ok {A} a.
Arguments Throw {A}.

Definition bind {A B} (r : result A) (k : A -> result B) : result B :=
  match r with
  | Ok a => k a
  | Throw => Throw
  end.

Notation "x <- r ;; k" := (bind r (fun x => k))
  (at level 61, r at next level, right associativity).

Definition of_option {A} (o : option A) : result A :=
  match o with
  | Some a => Ok a
  | None => Throw
  end.

Fixpoint traverse {A B} (f : A -> result B) (xs : list A) : result (list B) :=
  match xs with
  | [] => Ok []
  | x :: rest => y <- f x ;; ys <- traverse f rest ;; Ok (y :: ys)
  end.

(** ** Responses *)

(** What [POST] returns: a JSON response with its status and body text,
    or the 200 [text/event-stream] response whose body is produced by
    [start] from the agent query on [prompt].  The query is invoked in
    the second case only. *)
Inductive Response :=
| JsonResponse (status : nat) (body : string)
| EventStream (prompt : string).

(** [new Response(JSON.stringify({ error: msg }), { status, ... })] *)
Definition error_response (status : nat) (msg : string) : Response :=
  JsonResponse status (JSON_stringify (Obj [("error", Str msg)])).

(** ** Validation and prompt *)

(** [m.role === 'user']; reading a property of [null] throws. *)
Definition is_user (m : value) : result bool :=
  match m with
  | Null => Throw
  | _ => Ok (is_string "user" (get "role" m))
  end.

(** [messages.filter(m => m.role === 'user')] *)
Fixpoint filter_users (messages : list value) : result (list value) :=
  match messages with
  | [] => Ok []
  | m :: rest =>
      keep <- is_user m ;;
      users <- filter_users rest ;;
      Ok (if keep then m :: users else users)
  end.

(** [xs.pop()] as an expression: the last element, if any. *)
Definition pop {A} (xs : list A) : option A :=
  match rev xs with
  | [] => None
  | x :: _ => Some x
  end.

(** [m.content.length]: reading [length] of [undefined] or [null] throws. *)
Definition content_length_defined (m : value) : result unit :=
  match get "content" m with
  | None => Throw
  | Some Null => Throw
  | Some _ => Ok tt
  end.

(** [`${m.role === 'user' ? 'User' : 'Assistant'}: ${m.content}`] *)
Definition render_turn (m : value) : result string :=
  user <- is_user m ;;
  text <- of_option (ToString_opt (get "content" m)) ;;
  Ok ((if user then "User" else "Assistant") ++ ": " ++ text).

(** The body of the outer [try], from the parsed request body on.  The
    test on [messages] lets only an array through, so the last branch
    of the match on it is never taken. *)
Definition handle (body : value) : result Response :=
  messages <- match body with
              | Null => Throw
              | _ => Ok (get "messages" body)
              end ;;
  if negb (truthy messages) || negb (isArray messages)
  then Ok (error_response 400 "Messages array is required")
  else
    match messages with
    | Some (Arr entries) =>
        users <- filter_users entries ;;
        match pop users with
        | None => Ok (error_response 400 "No user message found")
        | Some lastUserMessage =>
            _ <- content_length_defined lastUserMessage ;;
            turns <- traverse render_turn (removelast entries) ;;
            let conversationContext := join (nl ++ nl) turns in
            last <- of_option (ToString_opt (get "content" lastUserMessage)) ;;
            Ok (EventStream
                  (if negb (String.eqb conversationContext "")
                   then SYSTEM_PROMPT ++ nl ++ nl ++ "Previous conversation:" ++ nl
                        ++ conversationContext ++ nl ++ nl ++ "User: " ++ last
                   else SYSTEM_PROMPT ++ nl ++ nl ++ "User: " ++ last))
        end
    | _ => Throw
    end.

(** [POST]; [request] is the outcome of [request.json()], [None] when
    the body is not JSON. *)
Definition POST (request : option value) : Response :=
  match (body <- of_option request ;; handle body) with
  | Ok response => response
  | Throw =>
      error_response 500
        "Failed to process chat request. Check server logs for details."
  end.

(** ** The event stream *)

(** The messages of the agent query, by the fields [start] reads. *)
Inductive Delta :=
| TextDelta (text : string)
| OtherDelta.

Inductive StreamEvent :=
| ContentBlockDelta (delta : option Delta)
| OtherEvent.

Inductive ContentBlock :=
| ToolUse (name : string)
| OtherBlock.

Inductive SDKMessage :=
| StreamEventMessage (event : StreamEvent)
| AssistantMessage (content : option (list ContentBlock))
| ToolProgress (tool_name : string) (elapsed_time_seconds : string)
| ResultMessage (subtype : string)
| OtherMessage.

(** How the iteration over the query ends. *)
Inductive Outcome :=
| Completed
| Threw.

(** [`data: ${JSON.stringify(obj)}\n\n`] *)
Definition data_event (fields : list (string * value)) : string :=
  "data: " ++ JSON_stringify (Obj fields) ++ nl ++ nl.

Definition DONE : string := "data: [DONE]" ++ nl ++ nl.

Definition stream_error : string :=
  data_event [("type", Str "error"); ("message", Str "Stream error occurred")].

(** The chunks enqueued for one message of the query. *)
Definition relay (message : SDKMessage) : list string :=
  match message with
  | StreamEventMessage (ContentBlockDelta (Some (TextDelta text))) =>
      [data_event [("type", Str "text_delta"); ("text", Str text)]]
  | StreamEventMessage _ => []
  | AssistantMessage (Some blocks) =>
      flat_map (fun block =>
                  match block with
                  | ToolUse name =>
                      [data_event [("type", Str "tool_start"); ("tool", Str name)]]
                  | OtherBlock => []
                  end) blocks
  | AssistantMessage None => []
  | ToolProgress tool_name elapsed =>
      [data_event [("type", Str "tool_progress"); ("tool", Str tool_name);
                   ("elapsed", Num elapsed)]]
  | ResultMessage subtype =>
      if String.eqb subtype "success"
      then [data_event [("type", Str "done")]]
      else [data_event [("type", Str "error");
                        ("message", Str "Query did not complete successfully")]]
  | OtherMessage => []
  end.

(** [start(controller)]: the chunks enqueued before the stream is
    closed, for a query that yields [messages] and then ends as
    [outcome] says. *)
Definition start (messages : list SDKMessage) (outcome : Outcome) : list string :=
  (flat_map relay messages ++
   match outcome with
   | Completed => [DONE]
   | Threw => [stream_error]
   end)%list.

(** The text of the response body. *)
Definition stream_text (messages : list SDKMessage) (outcome : Outcome) : string :=
  String.concat "" (start messages outcome).

(** ** Shapes of request bodies *)

(** The [messages] field is missing, is not an array, is an empty array
    or is an array with no entry of role [user]. *)
Definition lacks_user_message (body : value) : bool :=
  match get "messages" body with
  | Some (Arr entries) =>
      negb (existsb (fun m => is_string "user" (get "role" m)) entries)
  | _ => true
  end.

Definition is_null (v : value) : bool :=
  match v with
  | Null => true
  | _ => false
  end.

(** The [messages] field is an array with a [null] entry. *)
Definition has_null_entry (body : value) : bool :=
  match get "messages" body with
  | Some (Arr entries) => existsb is_null entries
  | _ => false
  end.

Definition server_error : Response :=
  error_response 500
    "Failed to process chat request. Check server logs for details.".

(** ** Sample requests *)

Definition message (role content : string) : value :=
  Obj [("role", Str role); ("content", Str content)].

Definition request_of (entries : list value) : value :=
  Obj [("messages", Arr entries)].

(** ** The prompt in the specification's words

    The fixed instruction string, the prior turns as [Role: content]
    lines, then the final user turn as the last [User: ...] line; a
    turn is a role and a content. *)

Definition turn_value (turn : string * string) : value :=
  message (fst turn) (snd turn).

Definition turn_line (turn : string * string) : string :=
  (if String.eqb (fst turn) "user" then "User" else "Assistant")
  ++ ": " ++ snd turn.

Definition spec_prompt (prior : list (string * string)) (final : string) : string :=
  match prior with
  | [] => SYSTEM_PROMPT ++ nl ++ nl ++ "User: " ++ final
  | _ => SYSTEM_PROMPT ++ nl ++ nl ++ "Previous conversation:" ++ nl
         ++ join (nl ++ nl) (map turn_line prior) ++ nl ++ nl
         ++ "User: " ++ final
  end.

(** How many lines of [text] are [line]. *)
Definition count_lines (line text : string) : nat :=
  count_occ string_dec (split_lines text) line.

(** A conversation that ends with a reply of the assistant. *)
Definition trailing_reply : value :=
  request_of [message "user" "What is Sentry?";
              message "assistant" "An error tracker."].

(** ** The events behind the chunks *)

(** The objects [relay] passes to [JSON.stringify] for one message. *)
Definition events (message : SDKMessage) : list (list (string * value)) :=
  match message with
  | StreamEventMessage (ContentBlockDelta (Some (TextDelta text))) =>
      [[("type", Str "text_delta"); ("text", Str text)]]
  | StreamEventMessage _ => []
  | AssistantMessage (Some blocks) =>
      flat_map (fun block =>
                  match block with
                  | ToolUse name => [[("type", Str "tool_start"); ("tool", Str name)]]
                  | OtherBlock => []
                  end) blocks
  | AssistantMessage None => []
  | ToolProgress tool_name elapsed =>
      [[("type", Str "tool_progress"); ("tool", Str tool_name);
        ("elapsed", Num elapsed)]]
  | ResultMessage subtype =>
      if String.eqb subtype "success"
      then [[("type", Str "done")]]
      else [[("type", Str "error");
             ("message", Str "Query did not complete successfully")]]
  | OtherMessage => []
  end.

(** The user-role entries of a message list, without the exceptions. *)
Definition user_entries (entries : list value) : list value :=
  filter (fun m => is_string "user" (get "role" m)) entries.

(** A request whose last user entry has no usable [content]. *)
Definition contentless : value :=
  request_of [message "user" "Hi"; Obj [("role", Str "user")]].

End Relay.

(* ================================================================== *)
(** * Chat client *)
(* ================================================================== *)

Module Chat.
Import JS.
Local Open Scope string_scope.

Inductive Role :=
| user
| assistant.

(** [interface Message]; the [Date] is a number of milliseconds. *)
Record Message := mkMessage {
  id : string;
  role : Role;
  content : string;
  timestamp : Z
}.

Inductive Status :=
| running
| complete.

(** [interface ToolStatus].  [name] and [elapsed] hold what the parsed
    event carries under [tool] and [elapsed], whatever it is. *)
Record ToolStatus := mkToolStatus {
  name : option value;
  status : Status;
  elapsed : option value
}.

(** The state the read loop of [handleSubmit] works on: the state cells
    [messages] and [currentTool] and the locals [streamingContent] and
    [toolsUsed]. *)
Record Loop := mkLoop {
  messages : list Message;
  currentTool : option ToolStatus;
  streamingContent : string;
  toolsUsed : nat
}.

(** How the reads of the response body end: [{ done: true }], or a
    rejected [reader.read()]. *)
Inductive ReadEnd :=
| Done
| ReadFailed.

Section Reader.

(** [JSON.parse], [None] for the [SyntaxError] it throws. *)
Variable JSON_parse : string -> option value.

(** [crypto.randomUUID()] of the placeholder. *)
Variable streamingMessageId : string.

(** [msg.id === streamingMessageId ? { ...msg, content: text } : msg] *)
Definition set_content (text : string) (msg : Message) : Message :=
  if String.eqb (id msg) streamingMessageId
  then mkMessage (id msg) (role msg) text (timestamp msg)
  else msg.

(** The body of the inner [try] after [JSON.parse]; [None] when it
    throws, which it does before any assignment: on [parsed.type] of
    [null], or on the conversion of [parsed.text] to a string. *)
Definition apply_event (parsed : value) (st : Loop) : option Loop :=
  match parsed with
  | Null => None
  | _ =>
      let type := get "type" parsed in
      if is_string "text_delta" type then
        match ToString_opt (get "text" parsed) with
        | None => None
        | Some text =>
            let streamed := streamingContent st ++ text in
            Some (mkLoop (map (set_content streamed) (messages st))
                         None streamed (toolsUsed st))
        end
      else if is_string "tool_start" type then
        Some (mkLoop (messages st)
                     (Some (mkToolStatus (get "tool" parsed) running None))
                     (streamingContent st) (S (toolsUsed st)))
      else if is_string "tool_progress" type then
        Some (mkLoop (messages st)
                     (match currentTool st with
                      | Some prev =>
                          Some (mkToolStatus (name prev) (status prev)
                                             (get "elapsed" parsed))
                      | None => None
                      end)
                     (streamingContent st) (toolsUsed st))
      else if is_string "done" type then
        Some (mkLoop (messages st) None (streamingContent st) (toolsUsed st))
      else if is_string "error" type then
        let streamed := "Sorry, I encountered an error processing your request." in
        Some (mkLoop (map (set_content streamed) (messages st))
                     None streamed (toolsUsed st))
      else Some st
  end.

(** One iteration of [for (const line of lines)]. *)
Definition handleLine (st : Loop) (line : string) : Loop :=
  if startsWith "data: " line then
    let data := slice 6 line in
    if String.eqb data "[DONE]" then st
    else
      match JSON_parse data with
      | None => st
      | Some parsed =>
          match apply_event parsed st with
          | Some st' => st'
          | None => st
          end
      end
  else st.

(** One iteration of [while (true)] with a chunk read; [chunk] is the
    text [decoder.decode(value)] gives. *)
Definition handleChunk (st : Loop) (chunk : string) : Loop :=
  fold_left handleLine (split_lines chunk) st.

Definition readLoop (st : Loop) (chunks : list string) : Loop :=
  fold_left handleChunk chunks st.

Definition placeholder (now : Z) : Message :=
  mkMessage streamingMessageId assistant "" now.

Definition is_placeholder (msg : Message) : bool :=
  String.eqb (id msg) streamingMessageId.

(** [handleSubmit] from the placeholder on, for a response with a body
    that delivers [chunks] and then ends as [ending] says: the messages
    it leaves ([currentTool] is reset to [null] in [finally]). *)
Definition receive (prev : list Message) (now : Z) (chunks : list string)
    (ending : ReadEnd) (errorId : string) (errorTime : Z) : list Message :=
  let st := readLoop (mkLoop (prev ++ [placeholder now])%list None "" 0) chunks in
  match ending with
  | Done =>
      if String.eqb (streamingContent st) ""
      then filter (fun msg => negb (is_placeholder msg)) (messages st)
      else messages st
  | ReadFailed =>
      (messages st ++
       [mkMessage errorId assistant
          "Sorry, I encountered an error. Please check your Claude credentials are configured correctly."
          errorTime])%list
  end.

(** ** What a line does *)

(** The event a line makes the loop apply, if any. *)
Definition applied_event (line : string) : option value :=
  if startsWith "data: " line then
    if String.eqb (slice 6 line) "[DONE]" then None
    else JSON_parse (slice 6 line)
  else None.

(** The line applies a [text_delta] event that carries non-empty text. *)
Definition carries_text (line : string) : bool :=
  match applied_event line with
  | Some Null => false
  | Some parsed =>
      if is_string "text_delta" (get "type" parsed) then
        match ToString_opt (get "text" parsed) with
        | Some text => negb (String.eqb text "")
        | None => false
        end
      else false
  | None => false
  end.

(** The line applies an [error] event. *)
Definition carries_error (line : string) : bool :=
  match applied_event line with
  | Some Null => false
  | Some parsed => is_string "error" (get "type" parsed)
  | None => false
  end.

Definition lines_of (chunks : list string) : list string :=
  flat_map split_lines chunks.

(** The line applies neither of the two. *)
Definition quiet (line : string) : bool :=
  negb (carries_text line) && negb (carries_error line).

(** Once something is streamed, the records with the placeholder's
    identifier show it. *)
Definition shown (st : Loop) : Prop :=
  streamingContent st = "" \/
  Forall (fun msg => is_placeholder msg = true ->
                     content msg = streamingContent st) (messages st).

(** [prev.filter(msg => msg.id !== streamingMessageId)] *)
Definition without_placeholder (msgs : list Message) : list Message :=
  filter (fun msg => negb (is_placeholder msg)) msgs.

End Reader.

(** The message list is [sent] with one more record, which holds the
    streamed content. *)
Definition tail_is_streamed (sid : string) (sent : list Message) (now : Z)
    (st : Loop) : Prop :=
  messages st
  = (sent ++ [mkMessage sid assistant (streamingContent st) now])%list.

(** ** Sample conversation *)

Definition welcome : Message :=
  mkMessage "welcome" assistant
    "Hello! I'm the SentryOS AI Assistant. How can I help you today?" 0.

Definition asked : list Message :=
  [welcome; mkMessage "u1" user "What is Sentry?" 1000].

(** A loop state in the middle of a stream. *)
Definition streaming : Loop :=
  mkLoop (asked ++ [mkMessage "p1" assistant "Sentry is" 2000])%list
         (Some (mkToolStatus (Some (Str "WebSearch")) running None))
         "Sentry is" 1.

(** A [data:] line cut short by the end of a chunk. *)
Definition cut_line : string :=
  "data: {" ++ quote "type" ++ ":" ++ quote "text_delta" ++ "," ++ quote "te".

End Chat.

(* ================================================================== *)
(** * Chat client: submission *)
(* ================================================================== *)

Module Submit.
Import JS Chat.
Local Open Scope string_scope.

(** The state cells of [Chat]. *)
Record Component := mkComponent {
  messages : list Message;
  input : string;
  isLoading : bool;
  currentTool : option ToolStatus
}.

(** What [fetch] and the response give [handleSubmit]: a [fetch] that
    rejects, a [fetch] whose promise never settles, a response that is
    not [ok], a response without a body, a body that delivers chunks
    and ends, or a body that delivers chunks and then a read whose
    promise never settles. *)
Inductive Response :=
| Rejected
| Unanswered
| NotOk (status : nat)
| NoBody
| Body (chunks : list string) (ending : ReadEnd)
| Stalled (chunks : list string).


(** The values of the calls of [crypto.randomUUID()] and [new Date()]
    in one run of [handleSubmit]. *)
Record Fresh := mkFresh {
  userId : string;
  userTime : Z;
  streamingMessageId : string;
  streamingTime : Z;
  errorId : string;
  errorTime : Z
}.

Definition userMessage (f : Fresh) (c : Component) : Message :=
  mkMessage (userId f) user (trim (input c)) (userTime f).

Definition errorMessage (f : Fresh) : Message :=
  mkMessage (errorId f) assistant
    "Sorry, I encountered an error. Please check your Claude credentials are configured correctly."
    (errorTime f).

Definition role_name (r : Role) : string :=
  match r with
  | user => "user"
  | assistant => "assistant"
  end.

(** [{ role: m.role, content: m.content }] *)
Definition wire (m : Message) : value :=
  Obj [("role", Str (role_name (role m))); ("content", Str (content m))].

(** The object [handleSubmit] passes to [JSON.stringify] as the body of
    the request. *)
Definition request_body (f : Fresh) (c : Component) : value :=
  Obj [("messages", Arr (map wire (messages c ++ [userMessage f c])%list))].

(** [handleSubmit], from the state at the submission to the state it
    leaves the component in: the state when its promise settles, or,
    when [fetch] or a read never settles, the state in which it is left
    waiting, before the [finally] block. *)
Definition handleSubmit (JSON_parse : string -> option value) (f : Fresh)
    (response : Response) (c : Component) : Component :=
  if (String.eqb (trim (input c)) "" || isLoading c)%bool then c
  else
    let sent := (messages c ++ [userMessage f c])%list in
    match response with
    | Unanswered => mkComponent sent "" true None
    | Stalled chunks =>
        let st :=
          readLoop JSON_parse (streamingMessageId f)
            (mkLoop (sent ++ [placeholder (streamingMessageId f) (streamingTime f)])%list
                    None "" 0)
            chunks in
        mkComponent (Chat.messages st) "" true (Chat.currentTool st)
    | Body chunks ending =>
        mkComponent
          (receive JSON_parse (streamingMessageId f) sent (streamingTime f)
                   chunks ending (errorId f) (errorTime f))
          "" false None
    | Rejected | NotOk _ | NoBody =>
        mkComponent (sent ++ [errorMessage f])%list "" false None
    end.

(** [handleKeyDown]: Enter without Shift submits. *)
Definition handleKeyDown (JSON_parse : string -> option value) (f : Fresh)
    (response : Response) (key : string) (shiftKey : bool) (c : Component)
  : Component :=
  if (String.eqb key "Enter" && negb shiftKey)%bool
  then handleSubmit JSON_parse f response c
  else c.

(** The state of [Chat] when it mounts. *)
Definition mounted : Component :=
  mkComponent [welcome] "" false None.

Definition sample_fresh : Fresh := mkFresh "u1" 1000 "p1" 2000 "e1" 3000.

Definition typed : Component :=
  mkComponent [welcome] "  What is Sentry?  " false None.

End Submit.

(* ================================================================== *)
(** * Relay and client together *)
(* ================================================================== *)

Module Protocol.
Import JS.
Local Open Scope string_scope.

(** The client reads the event back as the relay wrote it: its text is
    one line, and [JSON.parse] gives the object [JSON.stringify] was
    given. *)
Definition survives (JSON_parse : string -> option value)
    (fields : list (string * value)) : Prop :=
  JSON_parse (JSON_stringify (Obj fields)) = Some (Obj fields) /\
  has_LF (JSON_stringify (Obj fields)) = false.

(** The content the client sets on an [error] event. *)
Definition apology : string :=
  "Sorry, I encountered an error processing your request.".

(** What one message of the agent makes of the text shown so far. *)
Definition text_after (message : Relay.SDKMessage) (text : string) : string :=
  match message with
  | Relay.StreamEventMessage
      (Relay.ContentBlockDelta (Some (Relay.TextDelta delta))) => text ++ delta
  | Relay.ResultMessage subtype =>
      if String.eqb subtype "success" then text else apology
  | _ => text
  end.

Definition relayed_text (messages : list Relay.SDKMessage)
    (outcome : Relay.Outcome) : string :=
  match outcome with
  | Relay.Completed => fold_left (fun text m => text_after m text) messages ""
  | Relay.Threw => apology
  end.

(** The event of the last chunk, when it is one. *)
Definition closing_events (outcome : Relay.Outcome)
  : list (list (string * value)) :=
  match outcome with
  | Relay.Completed => []
  | Relay.Threw =>
      [[("type", Str "error"); ("message", Str "Stream error occurred")]]
  end.

Definition all_events (messages : list Relay.SDKMessage)
    (outcome : Relay.Outcome) : list (list (string * value)) :=
  (flat_map Relay.events messages ++ closing_events outcome)%list.

Definition is_progress (message : Relay.SDKMessage) : bool :=
  match message with
  | Relay.ToolProgress _ _ => true
  | _ => false
  end.

(** A message of the chat as a turn: its role and its content. *)
Definition turn_of (m : Chat.Message) : string * string :=
  (Submit.role_name (Chat.role m), Chat.content m).

(** What the reads of the client's reader give for the chunks the
    endpoint enqueued: chunks, which may be the enqueued ones joined or
    cut at other places, and how the reads end, [None] for a read whose
    promise never settles. *)
Definition Transport : Type := list string -> list string * option Chat.ReadEnd.

(** Each enqueued chunk is the value of one read, and the body ends. *)
Definition as_enqueued : Transport :=
  fun chunks => (chunks, Some Chat.Done).

(** Each enqueued chunk arrives in two reads, cut in the middle. *)
Definition halved : Transport :=
  fun chunks =>
    (flat_map (fun chunk =>
                 [substring 0 (String.length chunk / 2) chunk;
                  slice (String.length chunk / 2) chunk])
              chunks,
     Some Chat.Done).

(** The endpoint as [fetch] shows it to the client, for an agent that
    answers a prompt with messages and an outcome, over a transport: a
    status that is not [ok], or the body as the transport delivers it.
    [body] is the object the client stringified, which [request.json()]
    gives back to the endpoint. *)
Definition serve (agent : string -> list Relay.SDKMessage * Relay.Outcome)
    (deliver : Transport) (body : value) : Submit.Response :=
  match Relay.POST (Some body) with
  | Relay.JsonResponse status _ => Submit.NotOk status
  | Relay.EventStream prompt =>
      let (messages, outcome) := agent prompt in
      match deliver (Relay.start messages outcome) with
      | (chunks, Some ending) => Submit.Body chunks ending
      | (chunks, None) => Submit.Stalled chunks
      end
  end.

(** One submission against the endpoint. *)
Definition exchange (JSON_parse : string -> option value)
    (agent : string -> list Relay.SDKMessage * Relay.Outcome)
    (deliver : Transport)
    (f : Submit.Fresh) (c : Submit.Component) : Submit.Component :=
  Submit.handleSubmit JSON_parse f
    (serve agent deliver (Submit.request_body f c)) c.

(** An agent that searches the web and then answers. *)
Definition sample_agent (prompt : string)
  : list Relay.SDKMessage * Relay.Outcome :=
  ([Relay.AssistantMessage (Some [Relay.ToolUse "WebSearch"]);
    Relay.ToolProgress "WebSearch" "1.5";
    Relay.StreamEventMessage
      (Relay.ContentBlockDelta (Some (Relay.TextDelta "Sentry is ")));
    Relay.StreamEventMessage
      (Relay.ContentBlockDelta
         (Some (Relay.TextDelta ("an error" ++ nl ++ "tracker."))));
    Relay.ResultMessage "success"],
   Relay.Completed).

End Protocol.

(* ================================================================== *)
(** * Properties of the window manager *)
(* ================================================================== *)

Module WindowManagerProps.
Import WindowManager.
Local Open Scope Z_scope.

(** ** Lists of records under [map] and [filter] *)

Lemma ids_map (f : WindowState -> WindowState) ws :
  (forall w, id (f w) = id w) -> ids (map f ws) = ids ws.
Proof.
  intros Hf. unfold ids. rewrite map_map. apply map_ext. exact Hf.
Qed.

Lemma NoDup_map_filter {A B} (f : A -> B) (p : A -> bool) l :
  NoDup (map f l) -> NoDup (map f (filter p l)).
Proof.
  induction l as [|a l IH]; simpl; intros H; [constructor|].
  inversion H as [|? ? Hnotin Hnd]; subst.
  destruct (p a); simpl; auto.
  constructor; auto.
  intros Hin. apply Hnotin.
  apply in_map_iff in Hin. destruct Hin as [b [Hb Hin]].
  apply filter_In in Hin. apply in_map_iff. exists b. tauto.
Qed.

Lemma focused_count_filter p ws :
  (focused_count (filter p ws) <= focused_count ws)%nat.
Proof.
  unfold focused_count.
  induction ws as [|w ws IH]; simpl; [lia|].
  destruct (p w); simpl; destruct (isFocused w); simpl; lia.
Qed.

Lemma focused_count_map_same f ws :
  (forall w, isFocused (f w) = isFocused w) ->
  focused_count (map f ws) = focused_count ws.
Proof.
  intros Hf. unfold focused_count.
  induction ws as [|w ws IH]; simpl; [reflexivity|].
  rewrite Hf. destruct (isFocused w); simpl; rewrite IH; reflexivity.
Qed.

Lemma focused_count_map_le f ws :
  (forall w, isFocused (f w) = true -> isFocused w = true) ->
  (focused_count (map f ws) <= focused_count ws)%nat.
Proof.
  intros Hf. unfold focused_count.
  induction ws as [|w ws IH]; simpl; [lia|].
  destruct (isFocused (f w)) eqn:E.
  - rewrite (Hf w E). simpl. lia.
  - destruct (isFocused w); simpl; lia.
Qed.

Lemma focused_count_unfocus ws :
  focused_count (map (with_focus false) ws) = 0%nat.
Proof.
  unfold focused_count. induction ws as [|w ws IH]; simpl; auto.
Qed.

Lemma focused_count_app a b :
  focused_count (a ++ b) = (focused_count a + focused_count b)%nat.
Proof.
  unfold focused_count. rewrite filter_app, length_app. reflexivity.
Qed.

Lemma has_id_true i w : has_id i w = true <-> id w = i.
Proof. unfold has_id. apply String.eqb_eq. Qed.

Lemma has_id_false i w : has_id i w = false <-> id w <> i.
Proof. unfold has_id. apply String.eqb_neq. Qed.

Lemma id_count_le_1 i ws :
  NoDup (ids ws) -> (List.length (filter (has_id i) ws) <= 1)%nat.
Proof.
  induction ws as [|w ws IH]; simpl; intros H; [lia|].
  inversion H as [|? ? Hnotin Hnd]; subst.
  destruct (has_id i w) eqn:E; simpl; [|auto].
  apply has_id_true in E.
  assert (Hnone : filter (has_id i) ws = []).
  { clear IH H Hnd. induction ws as [|v ws IH]; simpl; [reflexivity|].
    destruct (has_id i v) eqn:Ev.
    - exfalso. apply Hnotin. apply has_id_true in Ev. left. congruence.
    - apply IH. intros Hin. apply Hnotin. right. exact Hin. }
  rewrite Hnone. simpl. lia.
Qed.

Lemma find_none_absent i ws :
  find (has_id i) ws = None -> ~ In i (ids ws).
Proof.
  intros Hf Hin. apply in_map_iff in Hin. destruct Hin as [w [Hw Hin]].
  apply (find_none _ _ Hf) in Hin. apply has_id_false in Hin. contradiction.
Qed.

Lemma map_absent (f g : WindowState -> WindowState) i ws :
  existsb (has_id i) ws = false ->
  map (fun w => if has_id i w then f w else g w) ws = map g ws.
Proof.
  induction ws as [|w ws IH]; simpl; [reflexivity|].
  destruct (has_id i w); simpl; [discriminate|].
  intros H. rewrite IH by exact H. reflexivity.
Qed.

(** ** The shape shared by the focus-causing operations

    [restoreWindow], [focusWindow] and the two re-open branches of
    [openWindow] all map [w => w.id === i ? g w : { ...w, isFocused:
    false }] where [g] keeps the identifier, focuses the record and
    stamps it with the new stacking index. *)

Section Raise.
Variable i : string.
Variable newZ : Z.
Variable g : WindowState -> WindowState.
Hypothesis g_id : forall w, id (g w) = id w.
Hypothesis g_focus : forall w, isFocused (g w) = true.
Hypothesis g_z : forall w, zIndex (g w) = newZ.

Lemma raise_one_id w : id (refocus i g w) = id w.
Proof. unfold refocus. destruct (has_id i w); [apply g_id|reflexivity]. Qed.

Lemma raise_focused_count ws :
  focused_count (map (refocus i g) ws) = List.length (filter (has_id i) ws).
Proof.
  unfold focused_count, refocus.
  induction ws as [|w ws IH]; simpl; [reflexivity|].
  destruct (has_id i w); simpl.
  - rewrite g_focus. simpl. rewrite IH. reflexivity.
  - exact IH.
Qed.

Lemma raise_z_bound top ws :
  newZ = top + 1 ->
  Forall (fun w => zIndex w <= top) ws ->
  Forall (fun w => zIndex w <= newZ) (map (refocus i g) ws).
Proof.
  intros Hz H. induction H as [|w ws Hw _ IH]; simpl; constructor; auto.
  unfold refocus. destruct (has_id i w); [rewrite g_z; lia|simpl; lia].
Qed.

Lemma raise_z_of_absent ws :
  ~ In i (ids ws) -> map zIndex (map (refocus i g) ws) = map zIndex ws.
Proof.
  induction ws as [|w ws IH]; simpl; intros H; [reflexivity|].
  unfold refocus at 1. destruct (has_id i w) eqn:E.
  - exfalso. apply H. left. apply has_id_true. exact E.
  - simpl. rewrite IH; [reflexivity|]. intros Hin. apply H. right. exact Hin.
Qed.

Lemma raise_z_in ws z :
  In z (map zIndex (map (refocus i g) ws)) ->
  z = newZ \/ In z (map zIndex ws).
Proof.
  induction ws as [|w ws IH]; simpl; [tauto|].
  unfold refocus at 1. destruct (has_id i w).
  - rewrite g_z. intros [H|H]; [left; congruence|]. destruct (IH H); tauto.
  - simpl. intros [H|H]; [tauto|]. destruct (IH H); tauto.
Qed.

Lemma raise_z_distinct top ws :
  newZ = top + 1 ->
  NoDup (ids ws) ->
  NoDup (map zIndex ws) ->
  Forall (fun w => zIndex w <= top) ws ->
  NoDup (map zIndex (map (refocus i g) ws)).
Proof.
  intros Hz. induction ws as [|w ws IH]; simpl; intros Hid Hzs Hb; [constructor|].
  apply NoDup_cons_iff in Hid. destruct Hid as [Hnotin Hnd].
  apply NoDup_cons_iff in Hzs. destruct Hzs as [Hznotin Hznd].
  apply Forall_cons_iff in Hb. destruct Hb as [Hw Hrest].
  unfold refocus at 1. destruct (has_id i w) eqn:E.
  - apply has_id_true in E. rewrite E in Hnotin.
    rewrite raise_z_of_absent by exact Hnotin.
    constructor; [|exact Hznd].
    rewrite g_z. intros Hin. apply in_map_iff in Hin.
    destruct Hin as [v [Hv Hin]].
    rewrite Forall_forall in Hrest. specialize (Hrest v Hin). simpl in Hrest. lia.
  - simpl. constructor; [|apply IH; assumption].
    intros Hin. destruct (raise_z_in ws (zIndex w) Hin) as [H|H].
    + lia.
    + contradiction.
Qed.

(** Windows with another identifier keep their stacking index. *)
Lemma raise_one_other w : id w <> i -> zIndex (refocus i g w) = zIndex w.
Proof.
  intros H. unfold refocus. apply has_id_false in H. rewrite H. reflexivity.
Qed.

Hypothesis g_geometry : forall w, same_geometry (g w) w.
Hypothesis g_minimized :
  forall w, isMinimized w = false -> isMinimized (g w) = false.

Lemma raise_reopened top ws k w :
  newZ = top + 1 ->
  Forall (fun v => zIndex v <= top) ws ->
  nth_error ws k = Some w ->
  id w = i ->
  isMinimized w = false ->
  exists w',
    nth_error (map (refocus i g) ws) k = Some w' /\
    id w' = id w /\ same_geometry w' w /\
    isMinimized w' = false /\ isFocused w' = true /\
    zIndex w' = top + 1 /\
    forall u', In u' (map (refocus i g) ws) -> id u' <> id w -> zIndex u' < zIndex w'.
Proof.
  intros Hz Hb Hk Hi Hm. exists (g w).
  split; [|split; [|split; [|split; [|split; [|split]]]]].
  - rewrite nth_error_map, Hk. simpl. unfold refocus.
    apply has_id_true in Hi. rewrite Hi. reflexivity.
  - apply g_id.
  - apply g_geometry.
  - apply g_minimized. exact Hm.
  - apply g_focus.
  - rewrite g_z. exact Hz.
  - intros u' Hin Hne. apply in_map_iff in Hin. destruct Hin as [u [Hu Hin]].
    rewrite <- Hu in *. rewrite raise_one_id in Hne.
    rewrite raise_one_other by congruence.
    rewrite g_z. rewrite Forall_forall in Hb. specialize (Hb u Hin).
    simpl in Hb. lia.
Qed.
End Raise.

(** ** Each operation preserves the invariant, part by part *)

Ltac unfold_ops :=
  unfold openWindow, closeWindow, minimizeWindow, maximizeWindow,
    restoreWindow, focusWindow, updateWindowPosition, updateWindowSize.

Lemma ids_unfocus_app ws w :
  ids (map (with_focus false) ws ++ [w]) = ids ws ++ [id w].
Proof.
  unfold ids. rewrite map_app, map_map. reflexivity.
Qed.

Lemma apply_distinct_ids m o : distinct_ids m -> distinct_ids (apply m o).
Proof.
  unfold distinct_ids. intros H.
  destruct o as [window|i|i|i|i|i|i nx ny|i nw nh]; simpl; unfold_ops; simpl.
  - destruct (find (has_id (init_id window)) (windows m)) as [existing|] eqn:Ef.
    + destruct (isMinimized existing);
        (rewrite ids_map; [exact H|]);
        intros w; destruct (has_id (init_id window) w); reflexivity.
    + rewrite ids_unfocus_app. simpl.
      apply NoDup_app; [exact H|repeat constructor; simpl; tauto|].
      intros a Ha [Hb|[]]. subst a.
      exact (find_none_absent _ _ Ef Ha).
  - apply NoDup_map_filter. exact H.
  - rewrite ids_map; [exact H|]. intros w; destruct (has_id i w); reflexivity.
  - rewrite ids_map; [exact H|]. intros w; destruct (has_id i w); reflexivity.
  - rewrite ids_map; [exact H|]. intros w; destruct (has_id i w); reflexivity.
  - rewrite ids_map; [exact H|]. intros w; destruct (has_id i w); reflexivity.
  - rewrite ids_map; [exact H|]. intros w; destruct (has_id i w); reflexivity.
  - rewrite ids_map; [exact H|]. intros w; destruct (has_id i w); reflexivity.
Qed.

Lemma apply_at_most_one_focused m o :
  distinct_ids m -> at_most_one_focused m -> at_most_one_focused (apply m o).
Proof.
  unfold distinct_ids, at_most_one_focused. intros Hid H.
  destruct o as [window|i|i|i|i|i|i nx ny|i nw nh]; simpl; unfold_ops; simpl.
  - destruct (find (has_id (init_id window)) (windows m)) as [existing|] eqn:Ef.
    + destruct (isMinimized existing).
      * rewrite (raise_focused_count (init_id window) (unminimized (topZIndex m + 1)))
          by reflexivity.
        apply id_count_le_1. exact Hid.
      * rewrite (raise_focused_count (init_id window) (raised (topZIndex m + 1)))
          by reflexivity.
        apply id_count_le_1. exact Hid.
    + rewrite focused_count_app, focused_count_unfocus.
      unfold focused_count. simpl. lia.
  - etransitivity; [apply focused_count_filter|exact H].
  - etransitivity; [apply focused_count_map_le|exact H].
    intros w. destruct (has_id i w); simpl; [discriminate|tauto].
  - rewrite focused_count_map_same; [exact H|].
    intros w. destruct (has_id i w); reflexivity.
  - rewrite (raise_focused_count i (unminimized (topZIndex m + 1))) by reflexivity.
    apply id_count_le_1. exact Hid.
  - rewrite (raise_focused_count i (raised (topZIndex m + 1))) by reflexivity.
    apply id_count_le_1. exact Hid.
  - rewrite focused_count_map_same; [exact H|].
    intros w. destruct (has_id i w); reflexivity.
  - rewrite focused_count_map_same; [exact H|].
    intros w. destruct (has_id i w); reflexivity.
Qed.

Lemma z_map_same (f : WindowState -> WindowState) ws :
  (forall w, zIndex (f w) = zIndex w) -> map zIndex (map f ws) = map zIndex ws.
Proof.
  intros Hf. rewrite map_map. apply map_ext. exact Hf.
Qed.

Lemma bound_weaken top ws :
  Forall (fun w => zIndex w <= top) ws ->
  Forall (fun w => zIndex w <= top + 1) ws.
Proof.
  apply Forall_impl. intros w Hw. lia.
Qed.

Lemma bound_map_same (f : WindowState -> WindowState) top ws :
  (forall w, zIndex (f w) = zIndex w) ->
  Forall (fun w => zIndex w <= top) ws ->
  Forall (fun w => zIndex w <= top) (map f ws).
Proof.
  intros Hf H. apply Forall_map. revert H. apply Forall_impl.
  intros w Hw. rewrite Hf. exact Hw.
Qed.

Lemma bound_filter p top ws :
  Forall (fun w => zIndex w <= top) ws ->
  Forall (fun w => zIndex w <= top) (filter p ws).
Proof.
  intros H. apply Forall_forall. intros w Hin. apply filter_In in Hin.
  rewrite Forall_forall in H. apply H. tauto.
Qed.

Lemma apply_bounded_by_top m o : bounded_by_top m -> bounded_by_top (apply m o).
Proof.
  unfold bounded_by_top. intros H.
  destruct o as [window|i|i|i|i|i|i nx ny|i nw nh]; simpl; unfold_ops; simpl.
  - destruct (find (has_id (init_id window)) (windows m)) as [existing|] eqn:Ef.
    + destruct (isMinimized existing).
      * apply (raise_z_bound (init_id window) (topZIndex m + 1)
                 (unminimized (topZIndex m + 1))) with (top := topZIndex m); auto.
      * apply (raise_z_bound (init_id window) (topZIndex m + 1)
                 (raised (topZIndex m + 1))) with (top := topZIndex m); auto.
    + apply Forall_app. split.
      * apply bound_map_same; [reflexivity|]. apply bound_weaken. exact H.
      * repeat constructor. simpl. lia.
  - apply bound_filter. exact H.
  - apply bound_map_same; [|exact H]. intros w; destruct (has_id i w); reflexivity.
  - apply bound_map_same; [|exact H]. intros w; destruct (has_id i w); reflexivity.
  - apply (raise_z_bound i (topZIndex m + 1)
             (unminimized (topZIndex m + 1))) with (top := topZIndex m); auto.
  - apply (raise_z_bound i (topZIndex m + 1)
             (raised (topZIndex m + 1))) with (top := topZIndex m); auto.
  - apply bound_map_same; [|exact H]. intros w; destruct (has_id i w); reflexivity.
  - apply bound_map_same; [|exact H]. intros w; destruct (has_id i w); reflexivity.
Qed.

Lemma apply_distinct_stacking m o :
  distinct_ids m -> bounded_by_top m -> distinct_stacking m ->
  distinct_stacking (apply m o).
Proof.
  unfold distinct_ids, bounded_by_top, distinct_stacking. intros Hid Hb H.
  destruct o as [window|i|i|i|i|i|i nx ny|i nw nh]; simpl; unfold_ops; simpl.
  - destruct (find (has_id (init_id window)) (windows m)) as [existing|] eqn:Ef.
    + destruct (isMinimized existing).
      * apply (raise_z_distinct (init_id window) (topZIndex m + 1)
                 (unminimized (topZIndex m + 1))) with (top := topZIndex m); auto.
      * apply (raise_z_distinct (init_id window) (topZIndex m + 1)
                 (raised (topZIndex m + 1))) with (top := topZIndex m); auto.
    + rewrite map_app, z_map_same by reflexivity. simpl.
      apply NoDup_app; [exact H|repeat constructor; simpl; tauto|].
      intros z Hz [Hz'|[]]. subst z.
      apply in_map_iff in Hz. destruct Hz as [w [Hw Hin]].
      rewrite Forall_forall in Hb. specialize (Hb w Hin). simpl in Hb. lia.
  - apply NoDup_map_filter. exact H.
  - rewrite z_map_same; [exact H|]. intros w; destruct (has_id i w); reflexivity.
  - rewrite z_map_same; [exact H|]. intros w; destruct (has_id i w); reflexivity.
  - apply (raise_z_distinct i (topZIndex m + 1)
             (unminimized (topZIndex m + 1))) with (top := topZIndex m); auto.
  - apply (raise_z_distinct i (topZIndex m + 1)
             (raised (topZIndex m + 1))) with (top := topZIndex m); auto.
  - rewrite z_map_same; [exact H|]. intros w; destruct (has_id i w); reflexivity.
  - rewrite z_map_same; [exact H|]. intros w; destruct (has_id i w); reflexivity.
Qed.

(** ** Runs *)

Lemma run_invariant (P : Manager -> Prop) :
  (forall m o, P m -> P (apply m o)) ->
  forall ops m, P m -> P (run m ops).
Proof.
  intros Hstep ops. induction ops as [|o ops IH]; simpl; intros m Hm.
  - exact Hm.
  - apply IH. apply Hstep. exact Hm.
Qed.

Lemma run_focus_invariant m ops :
  distinct_ids m -> at_most_one_focused m ->
  distinct_ids (run m ops) /\ at_most_one_focused (run m ops).
Proof.
  intros H1 H2.
  apply (run_invariant (fun m => distinct_ids m /\ at_most_one_focused m)); auto.
  intros m' o [Ha Hb]. split.
  - apply apply_distinct_ids; assumption.
  - apply apply_at_most_one_focused; assumption.
Qed.

Lemma run_stacking_invariant m ops :
  distinct_ids m -> bounded_by_top m -> distinct_stacking m ->
  distinct_ids (run m ops) /\ bounded_by_top (run m ops) /\
  distinct_stacking (run m ops).
Proof.
  intros H1 H2 H3.
  apply (run_invariant
           (fun m => distinct_ids m /\ bounded_by_top m /\ distinct_stacking m));
    auto.
  intros m' o [Ha [Hb Hc]]. split; [|split].
  - apply apply_distinct_ids; assumption.
  - apply apply_bounded_by_top; assumption.
  - apply apply_distinct_stacking; assumption.
Qed.

(** ** The specification's statements about the window manager *)

(** C1.  For every sequence of operations (open, close, minimize,
    maximize, restore, focus, move, resize) applied to any registry the
    manager can hold, that is, any registry that operations have made of
    the initial empty one, at most one window record has its focused
    flag set after each operation of the sequence. *)
Theorem at_most_one_focused_after_every_operation before ops k :
  at_most_one_focused (run (run initial before) (firstn k ops)).
Proof.
  destruct (run_focus_invariant initial before) as [Hid Hf].
  - constructor.
  - unfold at_most_one_focused, focused_count. simpl. lia.
  - apply run_focus_invariant; assumption.
Qed.

(** C2, as amended.  On an identifier that is not in the registry,
    close, minimize, maximize, move and resize leave the whole manager
    state unchanged; restore and focus keep every record but clear each
    focused flag, and they advance the top stacking counter by one. *)
Theorem operations_on_absent_id m i :
  present i m = false ->
  closeWindow i m = m /\
  minimizeWindow i m = m /\
  maximizeWindow i m = m /\
  (forall nx ny, updateWindowPosition i nx ny m = m) /\
  (forall nw nh, updateWindowSize i nw nh m = m) /\
  restoreWindow i m =
    {| windows := map (with_focus false) (windows m);
       topZIndex := topZIndex m + 1 |} /\
  focusWindow i m =
    {| windows := map (with_focus false) (windows m);
       topZIndex := topZIndex m + 1 |}.
Proof.
  unfold present. destruct m as [ws top]. simpl. intros H.
  assert (Hkeep : forall f, map (fun w => if has_id i w then f w else w) ws = ws).
  { intros f. rewrite (map_absent f (fun w => w)) by exact H. apply map_id. }
  assert (Hfilter : filter (fun w => negb (has_id i w)) ws = ws).
  { clear Hkeep. induction ws as [|w ws IH]; simpl in *; [reflexivity|].
    destruct (has_id i w); simpl in *; [discriminate|]. rewrite IH by exact H.
    reflexivity. }
  unfold_ops. simpl.
  rewrite Hfilter, !Hkeep, !map_absent by exact H.
  repeat split; intros; rewrite Hkeep; reflexivity.
Qed.

Lemma operations_on_absent_id_witness :
  present "gone" one_open = false /\
  closeWindow "gone" one_open = one_open /\
  focusWindow "gone" one_open =
    {| windows := [sample_window "chat" false 101]; topZIndex := 102 |}.
Proof.
  assert (H : present "gone" one_open = false) by reflexivity.
  split; [exact H|].
  destruct (operations_on_absent_id one_open "gone" H)
    as [Hc [_ [_ [_ [_ [_ Hf]]]]]].
  split; [exact Hc|exact Hf].
Defined.

(** C2 as stated fails for focus and for restore: on an absent
    identifier both unfocus the focused window and move the counter. *)
Lemma focus_and_restore_on_absent_id_change_state :
  present "gone" one_open = false /\
  focusWindow "gone" one_open <> one_open /\
  restoreWindow "gone" one_open <> one_open /\
  focused_count (windows (focusWindow "gone" one_open)) = 0%nat /\
  topZIndex (restoreWindow "gone" one_open) = 102.
Proof.
  repeat split; try reflexivity; intros H; discriminate H.
Qed.

(** Re-opening in a registry whose stacking indices are all at most the
    counter: the window ends above every record that carries another
    identifier. *)
Lemma reopen_in_bounded_registry m window k w :
  bounded_by_top m ->
  nth_error (windows m) k = Some w ->
  id w = init_id window ->
  isMinimized w = false ->
  exists w',
    nth_error (windows (openWindow window m)) k = Some w' /\
    id w' = id w /\ same_geometry w' w /\
    isMinimized w' = false /\ isFocused w' = true /\
    zIndex w' = topZIndex m + 1 /\
    forall u', In u' (windows (openWindow window m)) ->
               id u' <> id w -> zIndex u' < zIndex w'.
Proof.
  intros Hb Hk Hi Hm. unfold openWindow. simpl.
  destruct (find (has_id (init_id window)) (windows m)) as [existing|] eqn:Ef.
  - destruct (isMinimized existing).
    + apply (raise_reopened (init_id window) (topZIndex m + 1)
               (unminimized (topZIndex m + 1))); auto;
        intros; unfold same_geometry; simpl; tauto.
    + apply (raise_reopened (init_id window) (topZIndex m + 1)
               (raised (topZIndex m + 1))); auto;
        intros; unfold same_geometry; simpl; tauto.
  - exfalso. apply nth_error_In in Hk.
    apply (find_none _ _ Ef) in Hk. apply has_id_false in Hk. contradiction.
Qed.

(** Records at two places of a registry with distinct identifiers carry
    two identifiers. *)
Lemma distinct_positions ws j k u w :
  NoDup (ids ws) ->
  nth_error ws j = Some u -> nth_error ws k = Some w ->
  j <> k -> id u <> id w.
Proof.
  intros Hnd Hj Hk Hne E. apply Hne.
  apply (proj1 (NoDup_nth_error (ids ws)) Hnd).
  - unfold ids. rewrite length_map. apply nth_error_Some. rewrite Hj. discriminate.
  - unfold ids. rewrite !nth_error_map, Hj, Hk. simpl. congruence.
Qed.

(** C7.  In every registry the manager can hold (one that operations
    have made of the initial empty registry), re-opening a window that
    is in the registry and not minimized leaves its identifier and its
    geometry (x, y, width, height, minimum width and height) unchanged,
    keeps it non-minimized, focuses it and gives it the stacking index
    top + 1, strictly greater than the stacking index of every other
    window of the registry. *)
Theorem reopen_keeps_geometry_and_tops_every_other_window before window k w :
  nth_error (windows (run initial before)) k = Some w ->
  id w = init_id window ->
  isMinimized w = false ->
  exists w',
    nth_error (windows (openWindow window (run initial before))) k = Some w' /\
    id w' = id w /\ same_geometry w' w /\
    isMinimized w' = false /\ isFocused w' = true /\
    zIndex w' = topZIndex (run initial before) + 1 /\
    forall j u',
      j <> k ->
      nth_error (windows (openWindow window (run initial before))) j = Some u' ->
      zIndex u' < zIndex w'.
Proof.
  intros Hk Hi Hm.
  destruct (run_stacking_invariant initial before) as [Hid [Hb _]];
    try (constructor; fail).
  destruct (reopen_in_bounded_registry _ window k w Hb Hk Hi Hm)
    as [w' [H1 [H2 [H3 [H4 [H5 [H6 H7]]]]]]].
  exists w'. repeat (split; [assumption|]).
  intros j u' Hne Hj. apply H7.
  - apply nth_error_In with (n := j). exact Hj.
  - rewrite <- H2.
    apply (distinct_positions
             (windows (openWindow window (run initial before))) j k); auto.
    apply (apply_distinct_ids (run initial before) (Open window)). exact Hid.
Qed.

Lemma reopen_keeps_geometry_and_tops_every_other_window_witness :
  nth_error (windows (run initial two_opened)) 0
    = Some (with_focus false (created 101 (sample_init "notes"))) /\
  exists w',
    nth_error (windows (openWindow (sample_init "notes") (run initial two_opened))) 0
      = Some w' /\
    id w' = "notes" /\
    same_geometry w' (with_focus false (created 101 (sample_init "notes"))) /\
    isMinimized w' = false /\ isFocused w' = true /\
    zIndex w' = 103 /\
    forall j u',
      j <> 0%nat ->
      nth_error (windows (openWindow (sample_init "notes") (run initial two_opened))) j
        = Some u' ->
      zIndex u' < zIndex w'.
Proof.
  split; [reflexivity|].
  exact (reopen_keeps_geometry_and_tops_every_other_window two_opened
           (sample_init "notes") 0
           (with_focus false (created 101 (sample_init "notes")))
           eq_refl eq_refl eq_refl).
Defined.

(** C8.  For every registry and identifier, close yields a registry in
    which no window has that identifier, every window with another
    identifier is kept as it was (same records, same order) and the
    counter is untouched; closing twice is closing once. *)
Theorem close_removes_and_is_idempotent m i :
  present i (closeWindow i m) = false /\
  (forall w, In w (windows (closeWindow i m)) <-> In w (windows m) /\ id w <> i) /\
  (forall j, j <> i ->
     filter (has_id j) (windows (closeWindow i m)) = filter (has_id j) (windows m)) /\
  topZIndex (closeWindow i m) = topZIndex m /\
  closeWindow i (closeWindow i m) = closeWindow i m.
Proof.
  destruct m as [ws top]. unfold present, closeWindow. simpl.
  split; [|split; [|split; [|split]]].
  - induction ws as [|w ws IH]; simpl; [reflexivity|].
    destruct (has_id i w) eqn:E; simpl; [exact IH|]. rewrite E. exact IH.
  - intros w. rewrite filter_In. rewrite negb_true_iff, has_id_false. tauto.
  - intros j Hj. induction ws as [|w ws IH]; simpl; [reflexivity|].
    destruct (has_id i w) eqn:E; simpl.
    + destruct (has_id j w) eqn:Ej; [|exact IH].
      apply has_id_true in E, Ej. congruence.
    + rewrite IH. reflexivity.
  - reflexivity.
  - f_equal. induction ws as [|w ws IH]; simpl; [reflexivity|].
    destruct (has_id i w) eqn:E; simpl; [exact IH|]. rewrite E. simpl.
    rewrite IH. reflexivity.
Qed.

(** C10.  After every sequence of operations from the initial empty
    registry, the windows have pairwise distinct stacking indices and
    every stacking index is at most the top stacking counter. *)
Theorem stacking_indices_distinct_and_bounded ops :
  distinct_stacking (run initial ops) /\ bounded_by_top (run initial ops).
Proof.
  destruct (run_stacking_invariant initial ops) as [_ [Hb Hd]];
    try (constructor; fail).
  split; assumption.
Qed.

End WindowManagerProps.

(* ================================================================== *)
(** * Properties of the relay endpoint *)
(* ================================================================== *)

Module RelayProps.
Import JS Relay.
Local Open Scope string_scope.

(** ** Suffixes *)

Lemma chars_app a b :
  list_ascii_of_string (a ++ b)
  = (list_ascii_of_string a ++ list_ascii_of_string b)%list.
Proof.
  induction a as [|c a IH]; simpl; [reflexivity|]. rewrite IH. reflexivity.
Qed.

Lemma list_prefix_refl_app p l : list_prefix p (p ++ l)%list = true.
Proof.
  induction p as [|c p IH]; simpl; [reflexivity|].
  rewrite Ascii.eqb_refl. exact IH.
Qed.

Lemma list_prefix_extend p l m :
  list_prefix p l = true -> list_prefix p (l ++ m)%list = true.
Proof.
  revert l. induction p as [|c p IH]; intros [|d l]; simpl; auto; try discriminate.
  destruct (Ascii.eqb c d); simpl; [apply IH|discriminate].
Qed.

Lemma list_prefix_within p l m :
  (List.length p <= List.length l)%nat ->
  list_prefix p (l ++ m)%list = list_prefix p l.
Proof.
  revert l. induction p as [|c p IH]; intros [|d l]; simpl; intros H;
    try reflexivity; try lia.
  rewrite IH by lia. reflexivity.
Qed.

Lemma endsWith_app p a : endsWith p (a ++ p) = true.
Proof.
  unfold endsWith. rewrite chars_app, rev_app_distr. apply list_prefix_refl_app.
Qed.

Lemma endsWith_extend p a b : endsWith p b = true -> endsWith p (a ++ b) = true.
Proof.
  unfold endsWith. rewrite chars_app, rev_app_distr. apply list_prefix_extend.
Qed.

Lemma chars_length s : List.length (list_ascii_of_string s) = String.length s.
Proof.
  induction s as [|c s IH]; simpl; [reflexivity|]. rewrite IH. reflexivity.
Qed.

Lemma endsWith_within p a b :
  (String.length p <= String.length b)%nat ->
  endsWith p (a ++ b) = endsWith p b.
Proof.
  intros H. unfold endsWith. rewrite chars_app, rev_app_distr.
  apply list_prefix_within. rewrite !length_rev, !chars_length. exact H.
Qed.

Lemma append_empty s : s ++ "" = s.
Proof.
  induction s as [|c s IH]; simpl; [reflexivity|]. rewrite IH. reflexivity.
Qed.

Lemma append_assoc a b c : (a ++ b) ++ c = a ++ b ++ c.
Proof.
  induction a as [|x a IH]; simpl; [reflexivity|]. rewrite IH. reflexivity.
Qed.

Lemma concat_cons x xs : String.concat "" (x :: xs) = x ++ String.concat "" xs.
Proof.
  destruct xs; simpl; [rewrite append_empty|]; reflexivity.
Qed.

Lemma concat_app xs ys :
  String.concat "" (xs ++ ys) = String.concat "" xs ++ String.concat "" ys.
Proof.
  induction xs as [|x xs IH]; [reflexivity|].
  rewrite <- app_comm_cons, !concat_cons, IH, append_assoc. reflexivity.
Qed.

(** ** The chunks of the stream *)

Lemma data_event_ends_line fields : endsWith nl (data_event fields) = true.
Proof.
  unfold data_event. do 2 apply endsWith_extend. reflexivity.
Qed.

Lemma relay_ends_line message :
  Forall (fun chunk => endsWith nl chunk = true) (relay message).
Proof.
  destruct message as [[[[text|]|]|]|[blocks|]|tool time|subtype|]; simpl;
    repeat constructor; try apply data_event_ends_line.
  - induction blocks as [|[name|] blocks IH]; simpl; auto.
    constructor; [apply data_event_ends_line|exact IH].
  - destruct (subtype =? "success"); repeat constructor;
      apply data_event_ends_line.
Qed.

Lemma relayed_ends_line messages :
  Forall (fun chunk => endsWith nl chunk = true) (flat_map relay messages).
Proof.
  induction messages as [|m ms IH]; simpl; [constructor|].
  apply Forall_app. split; [apply relay_ends_line|exact IH].
Qed.

Lemma concat_ends_line chunks :
  Forall (fun chunk => endsWith nl chunk = true) chunks ->
  String.concat "" chunks = "" \/ endsWith nl (String.concat "" chunks) = true.
Proof.
  induction 1 as [|x xs Hx _ IH]; [left; reflexivity|].
  right. rewrite concat_cons. destruct IH as [IH|IH].
  - rewrite IH, append_empty. exact Hx.
  - apply endsWith_extend. exact IH.
Qed.

Lemma stream_text_split messages outcome :
  stream_text messages outcome
  = String.concat "" (flat_map relay messages)
    ++ match outcome with
       | Completed => DONE
       | Threw => stream_error
       end.
Proof.
  unfold stream_text, start. rewrite concat_app.
  destruct outcome; reflexivity.
Qed.

(** C3, as amended.  For every request accepted for streaming, when the
    agent stream is consumed to completion the emitted event stream
    ends with the literal line [data: [DONE]]; when an exception is
    thrown while streaming it ends with the line of the error event
    [stream_error] (type error, message Stream error occurred) and not
    with the [data: [DONE]] line.  In both cases what precedes the last
    line is empty or ends a line. *)
Theorem stream_last_line messages :
  (exists body,
     stream_text messages Completed = body ++ DONE /\
     (body = "" \/ endsWith nl body = true)) /\
  endsWith DONE (stream_text messages Completed) = true /\
  (exists body,
     stream_text messages Threw = body ++ stream_error /\
     (body = "" \/ endsWith nl body = true)) /\
  endsWith DONE (stream_text messages Threw) = false.
Proof.
  rewrite !stream_text_split.
  split; [|split; [|split]].
  - eexists. split; [reflexivity|].
    apply concat_ends_line, relayed_ends_line.
  - apply endsWith_app.
  - eexists. split; [reflexivity|].
    apply concat_ends_line, relayed_ends_line.
  - rewrite endsWith_within; [reflexivity|].
    vm_compute. lia.
Qed.

(** C3 as stated fails when the query throws: the stream then ends
    with the error event, and the [DONE] line is not sent. *)
Lemma stream_without_end_marker_on_exception :
  start [] Threw = [stream_error] /\
  endsWith DONE (stream_text [] Threw) = false /\
  ~ In ("data: [DONE]") (split_lines (stream_text [] Threw)) /\
  endsWith DONE
    (stream_text [StreamEventMessage (ContentBlockDelta (Some (TextDelta "Hi")))]
                 Threw) = false.
Proof.
  split; [reflexivity|]. split; [reflexivity|]. split; [|reflexivity].
  vm_compute. intros [H|[H|[H|[]]]]; discriminate H.
Qed.

(** ** Validation *)

Lemma filter_users_no_null entries :
  existsb is_null entries = false ->
  filter_users entries
  = Ok (filter (fun m => is_string "user" (get "role" m)) entries).
Proof.
  induction entries as [|m entries IH]; simpl; [reflexivity|].
  intros H. apply orb_false_iff in H. destruct H as [Hm H].
  rewrite (IH H). destruct m; simpl in *; try discriminate; reflexivity.
Qed.

Lemma filter_users_null entries :
  existsb is_null entries = true -> filter_users entries = Throw.
Proof.
  induction entries as [|m entries IH]; simpl; [discriminate|].
  intros H. apply orb_true_iff in H.
  destruct m; simpl in *; try reflexivity;
    (destruct H as [H|H]; [discriminate|]); rewrite (IH H);
    reflexivity.
Qed.

Lemma filter_no_user entries :
  existsb (fun m => is_string "user" (get "role" m)) entries = false ->
  filter (fun m => is_string "user" (get "role" m)) entries = [].
Proof.
  induction entries as [|m entries IH]; simpl; [reflexivity|].
  intros H. apply orb_false_iff in H. destruct H as [Hm H].
  rewrite Hm. exact (IH H).
Qed.

Lemma read_messages body :
  body <> Null ->
  match body with
  | Null => Throw
  | _ => Ok (get "messages" body)
  end = Ok (get "messages" body).
Proof.
  destruct body; intros H; try reflexivity. contradiction.
Qed.

(** [handle] on a body that is not [null], by the [messages] it reads. *)
Lemma handle_not_array body :
  body <> Null ->
  isArray (get "messages" body) = false ->
  handle body = Ok (error_response 400 "Messages array is required").
Proof.
  intros Hb Ha. unfold handle.
  rewrite (read_messages body Hb). unfold bind at 1.
  rewrite Ha, orb_true_r. reflexivity.
Qed.

Lemma handle_array body entries :
  get "messages" body = Some (Arr entries) ->
  handle body
  = bind (filter_users entries) (fun users =>
      match pop users with
      | None => Ok (error_response 400 "No user message found")
      | Some lastUserMessage =>
          bind (content_length_defined lastUserMessage) (fun _ =>
          bind (traverse render_turn (removelast entries)) (fun turns =>
          bind (of_option (ToString_opt (get "content" lastUserMessage)))
            (fun last =>
               Ok (EventStream
                     (if negb (String.eqb (join (nl ++ nl) turns) "")
                      then SYSTEM_PROMPT ++ nl ++ nl ++ "Previous conversation:"
                           ++ nl ++ join (nl ++ nl) turns ++ nl ++ nl
                           ++ "User: " ++ last
                      else SYSTEM_PROMPT ++ nl ++ nl ++ "User: " ++ last)))))
      end).
Proof.
  intros Hm. unfold handle.
  rewrite (read_messages body) by (intros ->; discriminate Hm).
  unfold bind at 1. rewrite Hm. reflexivity.
Qed.

(** C4, as amended.  For every request body whose messages field is
    missing, not an array, an empty array or an array with no entry of
    role user, the endpoint never invokes the agent query; it answers
    with status 400 and a JSON body with an error field when the body
    is not null and the array has no null entry, and with status 500
    and a JSON body with an error field when the body is null or the
    array has a null entry. *)
Theorem request_without_user_message body :
  lacks_user_message body = true ->
  (forall prompt, POST (Some body) <> EventStream prompt) /\
  (body <> Null -> has_null_entry body = false ->
   POST (Some body) = error_response 400 "Messages array is required" \/
   POST (Some body) = error_response 400 "No user message found") /\
  (body = Null \/ has_null_entry body = true -> POST (Some body) = server_error).
Proof.
  unfold lacks_user_message, has_null_entry. intros H.
  assert (Hnull : POST (Some Null) = server_error) by reflexivity.
  assert (Hcases :
            (body <> Null /\
             match get "messages" body with
             | Some (Arr entries) => existsb is_null entries
             | _ => false
             end = false /\
             (POST (Some body) = error_response 400 "Messages array is required" \/
              POST (Some body) = error_response 400 "No user message found")) \/
            ((body = Null \/
              match get "messages" body with
              | Some (Arr entries) => existsb is_null entries
              | _ => false
              end = true) /\
             POST (Some body) = server_error)).
  { destruct (get "messages" body) as [[| | | |entries|]|] eqn:Hm;
      try (destruct body; [right; split; [left; reflexivity|exact Hnull]|..];
           left; (split; [discriminate|split; [reflexivity|left]]);
           unfold POST; simpl bind at 1; cbv beta;
           rewrite handle_not_array; try discriminate; try reflexivity;
           rewrite Hm; reflexivity).
    destruct (existsb is_null entries) eqn:Hn.
    - right. split; [right; reflexivity|].
      unfold POST. simpl bind at 1. cbv beta.
      rewrite (handle_array _ _ Hm), (filter_users_null _ Hn). reflexivity.
    - left. split; [intros ->; discriminate Hm|]. split; [reflexivity|right].
      unfold POST. simpl bind at 1. cbv beta.
      rewrite (handle_array _ _ Hm), (filter_users_no_null _ Hn).
      apply negb_true_iff in H. rewrite (filter_no_user _ H). reflexivity. }
  destruct Hcases as [[Hb [Hn Hr]]|[Hc Hr]].
  - split; [|split].
    + intros prompt. destruct Hr as [Hr|Hr]; rewrite Hr; discriminate.
    + intros _ _. exact Hr.
    + intros [Hc|Hc]; [contradiction|]. rewrite Hn in Hc. discriminate.
  - split; [|split].
    + intros prompt. rewrite Hr. discriminate.
    + intros Hb Hn. destruct Hc as [Hc|Hc]; [contradiction|].
      rewrite Hn in Hc. discriminate.
    + intros _. exact Hr.
Qed.

Lemma request_without_user_message_witness :
  lacks_user_message (request_of [message "assistant" "Hello"]) = true /\
  request_of [message "assistant" "Hello"] <> Null /\
  has_null_entry (request_of [message "assistant" "Hello"]) = false /\
  (forall prompt,
     POST (Some (request_of [message "assistant" "Hello"])) <> EventStream prompt) /\
  (POST (Some (request_of [message "assistant" "Hello"]))
   = error_response 400 "Messages array is required" \/
   POST (Some (request_of [message "assistant" "Hello"]))
   = error_response 400 "No user message found").
Proof.
  assert (H : lacks_user_message (request_of [message "assistant" "Hello"]) = true)
    by reflexivity.
  assert (Hb : request_of [message "assistant" "Hello"] <> Null) by discriminate.
  assert (Hn : has_null_entry (request_of [message "assistant" "Hello"]) = false)
    by reflexivity.
  destruct (request_without_user_message _ H) as [Hq [H400 _]].
  split; [exact H|]. split; [exact Hb|]. split; [exact Hn|].
  split; [exact Hq|exact (H400 Hb Hn)].
Defined.

(** C4 as stated fails on a null entry and on the body null: reading a
    property of null throws, and the outer handler answers 500. *)
Lemma null_entry_is_answered_with_500 :
  lacks_user_message (request_of [Null]) = true /\
  POST (Some (request_of [Null])) = server_error /\
  (forall text, POST (Some (request_of [Null])) <> JsonResponse 400 text) /\
  lacks_user_message Null = true /\
  POST (Some Null) = server_error.
Proof.
  repeat split; try reflexivity. intros text H. discriminate H.
Qed.

(** ** The prompt *)

Lemma typed_turns_no_null turns : existsb is_null (map turn_value turns) = false.
Proof.
  induction turns as [|t turns IH]; simpl; auto.
Qed.

Lemma pop_last {A} (xs : list A) x : pop (xs ++ [x])%list = Some x.
Proof.
  unfold pop. rewrite rev_app_distr. reflexivity.
Qed.

Lemma render_typed_turns turns :
  traverse render_turn (map turn_value turns) = Ok (map turn_line turns).
Proof.
  induction turns as [|[role text] turns IH]; simpl; [reflexivity|].
  rewrite IH. reflexivity.
Qed.

Lemma join_turns_not_empty t turns :
  String.eqb (join (nl ++ nl) (map turn_line (t :: turns))) "" = false.
Proof.
  destruct t as [role text]. simpl map. unfold turn_line at 1. simpl fst.
  destruct (role =? "user"); destruct (map turn_line turns); reflexivity.
Qed.

(** When the last message is the user's, the prompt is the one the
    specification describes: each turn once, the last one last. *)
Lemma prompt_when_last_message_is_users prior final :
  POST (Some (request_of (map turn_value prior ++ [message "user" final])%list))
  = EventStream (spec_prompt prior final).
Proof.
  unfold POST. simpl bind at 1. cbv beta.
  rewrite (handle_array _ (map turn_value prior ++ [message "user" final])%list)
    by reflexivity.
  rewrite filter_users_no_null
    by (rewrite existsb_app, typed_turns_no_null; reflexivity).
  unfold bind at 1. rewrite filter_app. simpl filter at 2.
  rewrite pop_last. simpl content_length_defined. unfold bind at 1.
  rewrite removelast_last, render_typed_turns. unfold bind at 1.
  simpl of_option. unfold bind at 1.
  destruct prior as [|t prior]; [reflexivity|].
  rewrite join_turns_not_empty. reflexivity.
Qed.

(** C6, at a conversation that ends with a reply of the assistant: the
    code drops that reply from the prompt and writes the user's turn
    twice, once among the prior turns and once as the final line. *)
Theorem prompt_repeats_user_turn_after_trailing_reply :
  exists prompt,
    POST (Some trailing_reply) = EventStream prompt /\
    prompt = SYSTEM_PROMPT ++ nl ++ nl ++ "Previous conversation:" ++ nl
             ++ "User: What is Sentry?" ++ nl ++ nl ++ "User: What is Sentry?" /\
    count_lines "User: What is Sentry?" prompt = 2 /\
    count_lines "Assistant: An error tracker." prompt = 0 /\
    prompt <> spec_prompt [] "What is Sentry?".
Proof.
  eexists. split; [reflexivity|]. split; [reflexivity|].
  split; [vm_compute; reflexivity|]. split; [vm_compute; reflexivity|].
  intros H; vm_compute in H; discriminate H.
Qed.

End RelayProps.

(* ================================================================== *)
(** * Properties of the chat client *)
(* ================================================================== *)

Module ChatProps.
Import JS Chat.
Local Open Scope string_scope.

Section Reader.
Variable parse : string -> option value.
Variable sid : string.

(** ** Lines that do not parse *)

Lemma handleLine_malformed st line :
  parse (slice 6 line) = None -> handleLine parse sid st line = st.
Proof.
  intros H. unfold handleLine. rewrite H.
  destruct (startsWith "data: " line); [|reflexivity].
  destruct (slice 6 line =? "[DONE]"); reflexivity.
Qed.

Lemma readLoop_app st earlier later :
  readLoop parse sid st (earlier ++ later)
  = readLoop parse sid (readLoop parse sid st earlier) later.
Proof. unfold readLoop. apply fold_left_app. Qed.

Lemma readLoop_lines st chunks :
  readLoop parse sid st chunks
  = fold_left (handleLine parse sid) (lines_of chunks) st.
Proof.
  revert st. induction chunks as [|chunk chunks IH]; intros st; simpl;
    [reflexivity|].
  rewrite fold_left_app. apply IH.
Qed.

(** ** Streams that write no content *)

Lemma set_content_placeholder text msg :
  is_placeholder sid (set_content sid text msg) = is_placeholder sid msg.
Proof.
  unfold set_content, is_placeholder.
  destruct (id msg =? sid) eqn:E; simpl; [exact E|exact E].
Qed.

Lemma others_set_content text msgs :
  without_placeholder sid (map (set_content sid text) msgs)
  = without_placeholder sid msgs.
Proof.
  unfold without_placeholder.
  induction msgs as [|msg msgs IH]; simpl; [reflexivity|].
  rewrite set_content_placeholder, IH.
  unfold set_content, is_placeholder.
  destruct (id msg =? sid); reflexivity.
Qed.

Lemma set_content_all text msgs :
  Forall (fun msg => is_placeholder sid msg = true -> content msg = text)
         (map (set_content sid text) msgs).
Proof.
  apply Forall_map, Forall_forall. intros msg _.
  unfold set_content, is_placeholder at 1.
  destruct (id msg =? sid) eqn:E; simpl; [reflexivity|].
  unfold is_placeholder. rewrite E. discriminate.
Qed.

(** A quiet line keeps the streamed content empty and the other
    messages as they are. *)
Lemma handleLine_quiet st line :
  quiet parse line = true ->
  streamingContent st = "" ->
  streamingContent (handleLine parse sid st line) = "" /\
  without_placeholder sid (messages (handleLine parse sid st line))
  = without_placeholder sid (messages st).
Proof.
  unfold quiet, carries_text, carries_error, applied_event, handleLine.
  intros Hq Hs.
  destruct (startsWith "data: " line); [|auto].
  destruct (slice 6 line =? "[DONE]"); [auto|].
  destruct (parse (slice 6 line)) as [parsed|]; [|auto].
  apply andb_true_iff in Hq. destruct Hq as [Ht He].
  apply negb_true_iff in Ht, He.
  destruct parsed; [auto|..]; unfold apply_event;
    (destruct (is_string "text_delta" (get "type" _)) eqn:E1;
     [ destruct (ToString_opt (get "text" _)) as [text|]; [|auto];
       apply negb_false_iff, String.eqb_eq in Ht; subst text; simpl;
       rewrite Hs, others_set_content; auto
     | rewrite He;
       destruct (is_string "tool_start" (get "type" _)); [auto|];
       destruct (is_string "tool_progress" (get "type" _)); [auto|];
       destruct (is_string "done" (get "type" _)); auto ]).
Qed.

Lemma quiet_lines st lines :
  forallb (quiet parse) lines = true ->
  streamingContent st = "" ->
  streamingContent (fold_left (handleLine parse sid) lines st) = "" /\
  without_placeholder sid (messages (fold_left (handleLine parse sid) lines st))
  = without_placeholder sid (messages st).
Proof.
  revert st. induction lines as [|line lines IH]; intros st Hq Hs; simpl;
    [auto|].
  simpl in Hq. apply andb_true_iff in Hq. destruct Hq as [Hl Hq].
  destruct (handleLine_quiet st line Hl Hs) as [Hs' Hm'].
  destruct (IH _ Hq Hs') as [Hs'' Hm'']. split; [exact Hs''|].
  rewrite Hm''. exact Hm'.
Qed.

(** ** The placeholder is never left empty *)

Lemma handleLine_shown st line :
  shown sid st -> shown sid (handleLine parse sid st line).
Proof.
  unfold handleLine. intros H.
  destruct (startsWith "data: " line); [|exact H].
  destruct (slice 6 line =? "[DONE]"); [exact H|].
  destruct (parse (slice 6 line)) as [parsed|]; [|exact H].
  destruct parsed; [exact H|..]; unfold apply_event;
    (destruct (is_string "text_delta" (get "type" _));
     [ destruct (ToString_opt (get "text" _)) as [text|]; [|exact H];
       right; simpl; apply set_content_all
     | destruct (is_string "tool_start" (get "type" _)); [exact H|];
       destruct (is_string "tool_progress" (get "type" _)); [exact H|];
       destruct (is_string "done" (get "type" _)); [exact H|];
       destruct (is_string "error" (get "type" _)); [|exact H];
       right; simpl; apply set_content_all ]).
Qed.

Lemma lines_shown st lines :
  shown sid st -> shown sid (fold_left (handleLine parse sid) lines st).
Proof.
  revert st. induction lines as [|line lines IH]; intros st H; simpl;
    [exact H|].
  apply IH, handleLine_shown, H.
Qed.

Lemma others_no_placeholder msgs :
  Forall (fun msg => id msg <> sid) (without_placeholder sid msgs).
Proof.
  apply Forall_forall. intros msg Hin. apply filter_In in Hin.
  destruct Hin as [_ Hin]. apply negb_true_iff in Hin.
  apply String.eqb_neq. exact Hin.
Qed.

Lemma others_app a b :
  without_placeholder sid (a ++ b)%list
  = (without_placeholder sid a ++ without_placeholder sid b)%list.
Proof. apply filter_app. Qed.

End Reader.

(** ** The specification's statements about the chat client *)

(** C5, as amended.  For every relayed event stream that is read to its
    end and in which neither a text_delta event carrying non-empty text
    nor an error event is applied, the chat client removes the
    placeholder assistant message appended at stream start: the message
    list is the one before the stream without the records of the
    placeholder's identifier, so no message of that identifier, empty
    or not, remains. *)
Theorem placeholder_removed_when_nothing_streamed
    parse sid prev now chunks errorId errorTime :
  forallb (quiet parse) (lines_of chunks) = true ->
  receive parse sid prev now chunks Done errorId errorTime
  = without_placeholder sid prev /\
  Forall (fun msg => id msg <> sid)
         (receive parse sid prev now chunks Done errorId errorTime).
Proof.
  intros Hq.
  assert (E : receive parse sid prev now chunks Done errorId errorTime
              = without_placeholder sid prev).
  { unfold receive. rewrite readLoop_lines.
    destruct (quiet_lines parse sid
                (mkLoop (prev ++ [placeholder sid now])%list None "" 0)
                (lines_of chunks) Hq eq_refl) as [Hs Hm].
    rewrite Hs. simpl String.eqb. cbv iota.
    fold (without_placeholder sid
            (messages (fold_left (handleLine parse sid) (lines_of chunks)
               (mkLoop (prev ++ [placeholder sid now])%list None "" 0)))).
    rewrite Hm. simpl messages. rewrite others_app.
    unfold without_placeholder at 2, placeholder, is_placeholder. simpl.
    rewrite String.eqb_refl. simpl. apply app_nil_r. }
  split; [exact E|]. rewrite E. apply others_no_placeholder.
Qed.

Lemma placeholder_removed_when_nothing_streamed_witness :
  forallb (quiet JSON_parse)
    (lines_of (Relay.start [Relay.ToolProgress "WebSearch" "1.5";
                            Relay.ResultMessage "success"] Relay.Completed)) = true /\
  receive JSON_parse "p1" asked 2000
    (Relay.start [Relay.ToolProgress "WebSearch" "1.5";
                  Relay.ResultMessage "success"] Relay.Completed)
    Done "e1" 3000 = asked.
Proof.
  assert (H : forallb (quiet JSON_parse)
                (lines_of (Relay.start [Relay.ToolProgress "WebSearch" "1.5";
                                        Relay.ResultMessage "success"]
                                       Relay.Completed)) = true)
    by (vm_compute; reflexivity).
  split; [exact H|].
  exact (proj1 (placeholder_removed_when_nothing_streamed
                  JSON_parse "p1" asked 2000 _ "e1" 3000 H)).
Defined.

(** C5 as stated fails on an error event: no text_delta is applied,
    yet the placeholder is kept, with the error text as its content.
    The stream is the one the relay sends when its query throws. *)
Lemma placeholder_kept_on_error_event :
  forallb (fun line => negb (carries_text JSON_parse line))
          (lines_of (Relay.start [] Relay.Threw)) = true /\
  receive JSON_parse "p1" asked 2000 (Relay.start [] Relay.Threw) Done "e1" 3000
  = (asked ++ [mkMessage "p1" assistant
                 "Sorry, I encountered an error processing your request." 2000])%list.
Proof.
  split; vm_compute; reflexivity.
Qed.

(** After every stream that is read to its end, no record with the
    placeholder's identifier is left with empty content. *)
Lemma no_empty_placeholder_after_stream
    parse sid prev now chunks errorId errorTime :
  Forall (fun msg => id msg = sid -> content msg <> "")
         (receive parse sid prev now chunks Done errorId errorTime).
Proof.
  unfold receive. rewrite readLoop_lines.
  assert (H : shown sid (fold_left (handleLine parse sid) (lines_of chunks)
                 (mkLoop (prev ++ [placeholder sid now])%list None "" 0)))
    by (apply lines_shown; left; reflexivity).
  destruct (streamingContent _ =? "") eqn:E.
  - eapply Forall_impl; [|apply others_no_placeholder].
    intros msg Hne Heq. contradiction.
  - apply String.eqb_neq in E. destruct H as [H|H]; [contradiction|].
    eapply Forall_impl; [|exact H].
    intros msg Hc Hid. rewrite Hc; [exact E|].
    unfold is_placeholder. apply String.eqb_eq. exact Hid.
Qed.

(** C9.  A received line that begins with [data: ] and whose payload
    is not valid JSON leaves the loop state (message list, current tool
    status, streamed content, tool count) unchanged, whether or not the
    payload is the [DONE] sentinel; the lines after it in its chunk and
    the chunks after that are processed as if the line were not there. *)
Theorem malformed_data_line_is_skipped parse sid line :
  startsWith "data: " line = true ->
  parse (slice 6 line) = None ->
  (forall st, handleLine parse sid st line = st) /\
  (forall st before after,
     fold_left (handleLine parse sid) (before ++ line :: after)%list st
     = fold_left (handleLine parse sid) (before ++ after)%list st) /\
  (forall st earlier chunk later before after,
     split_lines chunk = (before ++ line :: after)%list ->
     readLoop parse sid st (earlier ++ chunk :: later)%list
     = readLoop parse sid
         (fold_left (handleLine parse sid) (before ++ after)%list
                    (readLoop parse sid st earlier))
         later).
Proof.
  intros _ Hp.
  assert (Hline : forall st, handleLine parse sid st line = st)
    by (intros st; apply handleLine_malformed; exact Hp).
  assert (Hfold : forall st before after,
             fold_left (handleLine parse sid) (before ++ line :: after)%list st
             = fold_left (handleLine parse sid) (before ++ after)%list st).
  { intros st before after. rewrite !fold_left_app. simpl.
    rewrite Hline. reflexivity. }
  split; [exact Hline|]. split; [exact Hfold|].
  intros st earlier chunk later before after Hsplit.
  rewrite readLoop_app. unfold readLoop at 1. simpl fold_left.
  unfold handleChunk at 2. rewrite Hsplit, Hfold. reflexivity.
Qed.

Lemma malformed_data_line_is_skipped_witness :
  startsWith "data: " cut_line = true /\
  JSON_parse (slice 6 cut_line) = None /\
  handleLine JSON_parse "p1" streaming cut_line = streaming.
Proof.
  assert (H1 : startsWith "data: " cut_line = true) by reflexivity.
  assert (H2 : JSON_parse (slice 6 cut_line) = None) by (vm_compute; reflexivity).
  split; [exact H1|]. split; [exact H2|].
  exact (proj1 (malformed_data_line_is_skipped JSON_parse "p1" cut_line H1 H2)
           streaming).
Defined.

End ChatProps.

(* ================================================================== *)
(** * Further properties of the window manager *)
(* ================================================================== *)

Module WindowManagerFacts.
Import WindowManager WindowManagerProps.
Local Open Scope Z_scope.

(** After every sequence of operations from the initial empty registry
    the identifiers of the windows are pairwise distinct: [openWindow]
    adds a record only when no record has its identifier. *)
Theorem reachable_ids_distinct ops : distinct_ids (run initial ops).
Proof.
  apply (run_invariant distinct_ids).
  - intros m o. apply apply_distinct_ids.
  - constructor.
Qed.

Lemma apply_focused_on_top m o : focused_on_top m -> focused_on_top (apply m o).
Proof.
  unfold focused_on_top. intros H.
  assert (Hre : forall i g,
             (forall w, zIndex (g w) = topZIndex m + 1) ->
             Forall (fun w => isFocused w = true -> zIndex w = topZIndex m + 1)
                    (map (refocus i g) (windows m))).
  { intros i g Hg. apply Forall_map, Forall_forall. intros w _.
    unfold refocus. destruct (has_id i w); [intros _; apply Hg|discriminate]. }
  assert (Hkeep : forall f : WindowState -> WindowState,
             (forall w, isFocused (f w) = true ->
                        isFocused w = true /\ zIndex (f w) = zIndex w) ->
             Forall (fun w => isFocused w = true -> zIndex w = topZIndex m)
                    (map f (windows m))).
  { intros f Hf. apply Forall_map. revert H. apply Forall_impl.
    intros w Hw Hfw. destruct (Hf w Hfw) as [H1 H2]. rewrite H2. auto. }
  destruct o as [window|i|i|i|i|i|i nx ny|i nw nh]; simpl; unfold_ops; simpl.
  - destruct (find (has_id (init_id window)) (windows m)) as [existing|].
    + destruct (isMinimized existing); apply Hre; reflexivity.
    + apply Forall_app. split.
      * apply Forall_map, Forall_forall. intros w _. discriminate.
      * repeat constructor.
  - apply Forall_forall. intros w Hin. apply filter_In in Hin.
    rewrite Forall_forall in H. apply H. tauto.
  - apply Hkeep. intros w. destruct (has_id i w); simpl; [discriminate|tauto].
  - apply Hkeep. intros w. destruct (has_id i w); simpl; tauto.
  - apply Hre. reflexivity.
  - apply Hre. reflexivity.
  - apply Hkeep. intros w. destruct (has_id i w); simpl; tauto.
  - apply Hkeep. intros w. destruct (has_id i w); simpl; tauto.
Qed.

Lemma NoDup_map_eq {A B} (f : A -> B) l a b :
  NoDup (map f l) -> In a l -> In b l -> f a = f b -> a = b.
Proof.
  induction l as [|c l IH]; simpl; intros Hnd Ha Hb Hf; [contradiction|].
  apply NoDup_cons_iff in Hnd. destruct Hnd as [Hnotin Hnd].
  destruct Ha as [Ha|Ha], Hb as [Hb|Hb]; subst; auto.
  - exfalso. apply Hnotin. rewrite Hf. apply in_map. exact Hb.
  - exfalso. apply Hnotin. rewrite <- Hf. apply in_map. exact Ha.
Qed.

(** After every sequence of operations from the initial empty registry
    a focused window is the topmost one: its stacking index is the
    counter, and every other window lies strictly below it. *)
Theorem focused_window_is_topmost ops w u :
  In w (windows (run initial ops)) ->
  In u (windows (run initial ops)) ->
  isFocused w = true ->
  u <> w ->
  zIndex w = topZIndex (run initial ops) /\ zIndex u < zIndex w.
Proof.
  intros Hw Hu Hf Hne.
  assert (Htop : focused_on_top (run initial ops)).
  { apply (run_invariant focused_on_top).
    - intros m o. apply apply_focused_on_top.
    - constructor. }
  destruct (run_stacking_invariant initial ops) as [_ [Hb Hd]];
    try (constructor; fail).
  unfold focused_on_top in Htop. unfold bounded_by_top in Hb.
  unfold distinct_stacking in Hd.
  rewrite Forall_forall in Htop, Hb.
  assert (Hz : zIndex w = topZIndex (run initial ops)) by (apply Htop; assumption).
  split; [exact Hz|].
  assert (Hle : zIndex u <= topZIndex (run initial ops)) by (apply Hb; assumption).
  assert (Hneq : zIndex u <> zIndex w).
  { intros E. apply Hne. apply (NoDup_map_eq zIndex _ _ _ Hd Hu Hw E). }
  lia.
Qed.

Lemma focused_window_is_topmost_witness :
  In (created 102 (sample_init "chat"))
     (windows (run initial [Open (sample_init "notes"); Open (sample_init "chat")])) /\
  In (with_focus false (created 101 (sample_init "notes")))
     (windows (run initial [Open (sample_init "notes"); Open (sample_init "chat")])) /\
  zIndex (created 102 (sample_init "chat")) = 102 /\
  zIndex (with_focus false (created 101 (sample_init "notes"))) < 102.
Proof.
  assert (Hw : In (created 102 (sample_init "chat"))
                  (windows (run initial [Open (sample_init "notes");
                                         Open (sample_init "chat")])))
    by (simpl; auto).
  assert (Hu : In (with_focus false (created 101 (sample_init "notes")))
                  (windows (run initial [Open (sample_init "notes");
                                         Open (sample_init "chat")])))
    by (simpl; auto).
  split; [exact Hw|]. split; [exact Hu|].
  exact (focused_window_is_topmost _ _ _ Hw Hu eq_refl ltac:(discriminate)).
Defined.

(** The counter advances by one on each open, restore and focus,
    whatever the identifier, and on nothing else: after a run it is the
    counter before plus the number of those operations. *)
Theorem counter_counts_focus_operations m ops :
  topZIndex (run m ops)
  = topZIndex m + Z.of_nat (List.length (filter focus_causing ops)).
Proof.
  unfold run. revert m. induction ops as [|o ops IH]; intros m; simpl.
  - lia.
  - rewrite IH. destruct o; simpl; lia.
Qed.

Lemma map_twice_on_id (f : WindowState -> WindowState) i ws :
  (forall w, id (f w) = id w) ->
  map (fun w => if has_id i w then f w else w)
      (map (fun w => if has_id i w then f w else w) ws)
  = map (fun w => if has_id i w then f (f w) else w) ws.
Proof.
  intros Hid. rewrite map_map. apply map_ext. intros w.
  destruct (has_id i w) eqn:E; [|rewrite E; reflexivity].
  unfold has_id in *. rewrite Hid, E. reflexivity.
Qed.

(** Maximizing twice gives back the state before, for every registry
    and identifier: the operation flips one flag and nothing else. *)
Theorem maximize_twice_is_identity m i :
  maximizeWindow i (maximizeWindow i m) = m.
Proof.
  destruct m as [ws top]. unfold maximizeWindow. simpl. f_equal.
  rewrite map_twice_on_id by reflexivity.
  rewrite <- (map_id ws) at 2. apply map_ext. intros w.
  destruct (has_id i w); [|reflexivity].
  destruct w. unfold toggled. simpl. rewrite negb_involutive. reflexivity.
Qed.

Lemma present_count i ws :
  existsb (has_id i) ws = true -> (1 <= List.length (filter (has_id i) ws))%nat.
Proof.
  induction ws as [|w ws IH]; simpl; [discriminate|].
  destruct (has_id i w); simpl; [lia|exact IH].
Qed.

Lemma refocus_exactly_one i g ws :
  (forall w, isFocused (g w) = true) ->
  (forall w, id (g w) = id w) ->
  NoDup (ids ws) ->
  existsb (has_id i) ws = true ->
  focused_count (map (refocus i g) ws) = 1%nat /\
  forall w, In w (map (refocus i g) ws) -> isFocused w = has_id i w.
Proof.
  intros Hf Hid Hnd Hp. split.
  - rewrite (raise_focused_count i g Hf).
    pose proof (id_count_le_1 i ws Hnd). pose proof (present_count i ws Hp). lia.
  - intros w Hin. apply in_map_iff in Hin. destruct Hin as [v [Hv Hin]].
    subst w. unfold refocus, has_id. destruct (String.eqb (id v) i) eqn:E.
    + rewrite Hf, Hid, E. reflexivity.
    + simpl. rewrite E. reflexivity.
Qed.

Lemma present_find i ws :
  existsb (has_id i) ws = true -> exists w, find (has_id i) ws = Some w.
Proof.
  induction ws as [|w ws IH]; simpl; [discriminate|].
  destruct (has_id i w); [eauto|exact IH].
Qed.

(** In a registry with pairwise distinct identifiers, focus, restore
    and open on an identifier that is present leave exactly one window
    focused, the one with that identifier. *)
Theorem focus_moves_to_the_named_window m i window :
  distinct_ids m ->
  present i m = true ->
  init_id window = i ->
  (focused_count (windows (focusWindow i m)) = 1%nat /\
   forall w, In w (windows (focusWindow i m)) -> isFocused w = has_id i w) /\
  (focused_count (windows (restoreWindow i m)) = 1%nat /\
   forall w, In w (windows (restoreWindow i m)) -> isFocused w = has_id i w) /\
  (focused_count (windows (openWindow window m)) = 1%nat /\
   forall w, In w (windows (openWindow window m)) -> isFocused w = has_id i w).
Proof.
  unfold distinct_ids, present. intros Hnd Hp Hi.
  split; [|split].
  - apply (refocus_exactly_one i (raised (topZIndex m + 1))); auto.
  - apply (refocus_exactly_one i (unminimized (topZIndex m + 1))); auto.
  - unfold openWindow. simpl. rewrite Hi.
    destruct (present_find i _ Hp) as [existing Hfind]. rewrite Hfind.
    destruct (isMinimized existing).
    + apply (refocus_exactly_one i (unminimized (topZIndex m + 1))); auto.
    + apply (refocus_exactly_one i (raised (topZIndex m + 1))); auto.
Qed.

Lemma focus_moves_to_the_named_window_witness :
  distinct_ids both_focused /\
  present "notes" both_focused = true /\
  focused_count (windows (focusWindow "notes" both_focused)) = 1%nat /\
  focused_count (windows (openWindow (sample_init "notes") both_focused)) = 1%nat.
Proof.
  assert (H1 : distinct_ids both_focused).
  { unfold distinct_ids. simpl. repeat constructor; simpl; try tauto.
    intros [H|[]]. discriminate H. }
  assert (H2 : present "notes" both_focused = true) by reflexivity.
  destruct (focus_moves_to_the_named_window both_focused "notes"
              (sample_init "notes") H1 H2 eq_refl) as [[Hf _] [_ [Ho _]]].
  split; [exact H1|]. split; [exact H2|]. split; [exact Hf|exact Ho].
Defined.

(** Restoring a window that was just minimized gives the state that
    restoring it directly gives: restore undoes minimize.  So does
    re-opening it, in a registry with pairwise distinct identifiers. *)
Theorem restore_undoes_minimize m i :
  restoreWindow i (minimizeWindow i m) = restoreWindow i m /\
  (forall window,
     init_id window = i -> present i m = true ->
     openWindow window (minimizeWindow i m) = restoreWindow i m).
Proof.
  assert (Hr : restoreWindow i (minimizeWindow i m) = restoreWindow i m).
  { destruct m as [ws top]. unfold restoreWindow, minimizeWindow. simpl.
    f_equal. rewrite map_map. apply map_ext. intros w.
    destruct (has_id i w) eqn:E.
    - unfold has_id in *. simpl. rewrite E. reflexivity.
    - rewrite E. reflexivity. }
  split; [exact Hr|].
  intros window Hi Hp. rewrite <- Hr.
  unfold openWindow. rewrite Hi.
  assert (Hfind : exists w,
             find (has_id i) (windows (minimizeWindow i m)) = Some (minimized w)).
  { unfold present in Hp. unfold minimizeWindow. simpl.
    induction (windows m) as [|w ws IH]; simpl in *; [discriminate|].
    destruct (has_id i w) eqn:E.
    - exists w. unfold has_id in *. simpl. rewrite E. reflexivity.
    - rewrite E. simpl in Hp. apply IH. exact Hp. }
  destruct Hfind as [w Hfind]. rewrite Hfind. reflexivity.
Qed.

Lemma restore_undoes_minimize_witness :
  present "chat" one_open = true /\
  openWindow (sample_init "chat") (minimizeWindow "chat" one_open)
  = restoreWindow "chat" one_open.
Proof.
  assert (H : present "chat" one_open = true) by reflexivity.
  split; [exact H|].
  exact (proj2 (restore_undoes_minimize one_open "chat")
           (sample_init "chat") eq_refl H).
Defined.

Lemma geometry_kept (f : WindowState -> WindowState) ws :
  (forall w, same_geometry (f w) w) -> Forall2 same_geometry (map f ws) ws.
Proof.
  intros Hf. induction ws as [|w ws IH]; simpl; constructor; auto.
Qed.

(** Re-opening an identifier that is present ignores the record that
    is passed: title, icon, geometry, flags and content of the existing
    window stay, and no window is added. *)
Theorem reopen_ignores_the_record m a b :
  present (init_id a) m = true ->
  init_id b = init_id a ->
  openWindow a m = openWindow b m /\
  List.length (windows (openWindow a m)) = List.length (windows m) /\
  map (fun w => (id w, title w, icon w, content w, isMaximized w))
      (windows (openWindow a m))
  = map (fun w => (id w, title w, icon w, content w, isMaximized w)) (windows m) /\
  Forall2 same_geometry (windows (openWindow a m)) (windows m).
Proof.
  unfold present. intros Hp Hb.
  destruct (present_find _ _ Hp) as [existing Hfind].
  split; [|split; [|split]].
  - unfold openWindow. rewrite Hb, Hfind. reflexivity.
  - unfold openWindow. simpl. rewrite Hfind.
    destruct (isMinimized existing); apply length_map.
  - unfold openWindow. simpl. rewrite Hfind.
    destruct (isMinimized existing); rewrite map_map; apply map_ext;
      intros w; destruct (has_id (init_id a) w); reflexivity.
  - unfold openWindow. simpl. rewrite Hfind.
    destruct (isMinimized existing); apply geometry_kept; intros w;
      destruct (has_id (init_id a) w); unfold same_geometry; simpl; tauto.
Qed.

Lemma reopen_ignores_the_record_witness :
  present "chat" one_open = true /\
  openWindow (sample_init "chat") one_open
  = openWindow (mkInit "chat" "Another title" "x" 0 0 1 1 1 1 true true "other")
               one_open.
Proof.
  assert (H : present (init_id (sample_init "chat")) one_open = true) by reflexivity.
  split; [exact H|].
  exact (proj1 (reopen_ignores_the_record one_open (sample_init "chat")
                  (mkInit "chat" "Another title" "x" 0 0 1 1 1 1 true true "other")
                  H eq_refl)).
Defined.

Lemma focused_count_all_unfocused ws :
  Forall (fun w => isFocused w = false) ws -> focused_count ws = 0%nat.
Proof.
  unfold focused_count. induction 1 as [|w ws Hw _ IH]; simpl; [reflexivity|].
  rewrite Hw. exact IH.
Qed.

Lemma only_one_focused w ws :
  (focused_count ws <= 1)%nat -> In w ws -> isFocused w = true ->
  forall v, In v ws -> isFocused v = true -> v = w.
Proof.
  unfold focused_count.
  induction ws as [|u ws IH]; simpl; intros Hc Hw Hf v Hv Hfv; [contradiction|].
  destruct (isFocused u) eqn:Eu; simpl in Hc.
  - assert (Hnone : forall z, In z ws -> isFocused z = false).
    { intros z Hz. destruct (isFocused z) eqn:Ez; [|reflexivity].
      assert (In z (filter isFocused ws)) by (apply filter_In; auto).
      destruct (filter isFocused ws); [contradiction|simpl in Hc; lia]. }
    destruct Hw as [Hw|Hw]; [|rewrite (Hnone w Hw) in Hf; discriminate].
    destruct Hv as [Hv|Hv]; [congruence|rewrite (Hnone v Hv) in Hfv; discriminate].
  - destruct Hw as [Hw|Hw]; [subst; congruence|].
    destruct Hv as [Hv|Hv]; [subst; congruence|].
    apply IH; auto.
Qed.

(** Closing or minimizing the focused window leaves no window focused:
    neither operation hands the focus to another window. *)
Theorem focus_is_not_handed_over m w :
  at_most_one_focused m ->
  In w (windows m) ->
  isFocused w = true ->
  focused_count (windows (closeWindow (id w) m)) = 0%nat /\
  focused_count (windows (minimizeWindow (id w) m)) = 0%nat.
Proof.
  unfold at_most_one_focused. intros Hc Hw Hf.
  pose proof (only_one_focused w _ Hc Hw Hf) as Honly.
  split; apply focused_count_all_unfocused, Forall_forall; simpl.
  - intros v Hv. apply filter_In in Hv. destruct Hv as [Hv Hid].
    destruct (isFocused v) eqn:E; [|reflexivity].
    rewrite (Honly v Hv E) in Hid. unfold has_id in Hid.
    rewrite String.eqb_refl in Hid. discriminate.
  - intros v Hv. apply in_map_iff in Hv. destruct Hv as [u [Hu Hin]]. subst v.
    destruct (has_id (id w) u) eqn:E; [reflexivity|].
    destruct (isFocused u) eqn:Eu; [|reflexivity].
    rewrite (Honly u Hin Eu) in E. unfold has_id in E.
    rewrite String.eqb_refl in E. discriminate.
Qed.

Lemma focus_is_not_handed_over_witness :
  at_most_one_focused (run initial [Open (sample_init "notes");
                                    Open (sample_init "chat")]) /\
  focused_count
    (windows (closeWindow "chat"
                (run initial [Open (sample_init "notes");
                              Open (sample_init "chat")]))) = 0%nat.
Proof.
  assert (Hc : at_most_one_focused
                 (run initial [Open (sample_init "notes");
                               Open (sample_init "chat")]))
    by (unfold at_most_one_focused, focused_count; simpl; lia).
  split; [exact Hc|].
  exact (proj1 (focus_is_not_handed_over _ (created 102 (sample_init "chat"))
                  Hc ltac:(simpl; auto) eq_refl)).
Defined.

(** Move and resize commute, on the same window or on two, and of two
    moves of a window the later one decides; neither touches the
    stacking counter, a stacking index or a focused flag. *)
Theorem move_and_resize_compose m i j nx ny nw nh nx' ny' :
  updateWindowSize j nw nh (updateWindowPosition i nx ny m)
  = updateWindowPosition i nx ny (updateWindowSize j nw nh m) /\
  updateWindowPosition i nx' ny' (updateWindowPosition i nx ny m)
  = updateWindowPosition i nx' ny' m /\
  map (fun w => (id w, zIndex w, isFocused w))
      (windows (updateWindowSize j nw nh (updateWindowPosition i nx ny m)))
  = map (fun w => (id w, zIndex w, isFocused w)) (windows m) /\
  topZIndex (updateWindowSize j nw nh (updateWindowPosition i nx ny m))
  = topZIndex m.
Proof.
  destruct m as [ws top]. unfold updateWindowSize, updateWindowPosition. simpl.
  split; [|split; [|split]].
  - f_equal. rewrite !map_map. apply map_ext. intros w. unfold has_id.
    destruct (String.eqb (id w) i) eqn:Ei; destruct (String.eqb (id w) j) eqn:Ej;
      simpl; rewrite ?Ei, ?Ej; reflexivity.
  - f_equal. rewrite map_map. apply map_ext. intros w. unfold has_id.
    destruct (String.eqb (id w) i) eqn:Ei; simpl; rewrite Ei; reflexivity.
  - rewrite !map_map. apply map_ext. intros w. unfold has_id.
    destruct (String.eqb (id w) i) eqn:Ei; destruct (String.eqb (id w) j) eqn:Ej;
      simpl; rewrite ?Ei, ?Ej; reflexivity.
  - reflexivity.
Qed.

Lemma existsb_ids i ws :
  existsb (String.eqb i) (ids ws) = existsb (has_id i) ws.
Proof.
  induction ws as [|w ws IH]; simpl; [reflexivity|].
  rewrite IH. unfold has_id. rewrite (String.eqb_sym i (id w)). reflexivity.
Qed.

(** Only open adds a window, and only for an identifier that is not
    there yet, at the end of the list; only close removes one; every
    other operation keeps the identifiers and their order. *)
Theorem identifiers_after_operation m o :
  ids (windows (apply m o)) = ids_after o (ids (windows m)).
Proof.
  destruct o as [window|i|i|i|i|i|i nx ny|i nw nh]; simpl; unfold_ops; simpl;
    try (apply ids_map; intros w; destruct (has_id i w); reflexivity).
  - rewrite existsb_ids.
    destruct (find (has_id (init_id window)) (windows m)) as [existing|] eqn:Ef.
    + assert (Hp : existsb (has_id (init_id window)) (windows m) = true).
      { apply existsb_exists. exists existing. apply find_some in Ef. exact Ef. }
      rewrite Hp.
      destruct (isMinimized existing); apply ids_map; intros w;
        destruct (has_id (init_id window) w); reflexivity.
    + assert (Hp : existsb (has_id (init_id window)) (windows m) = false).
      { destruct (existsb _ _) eqn:E; [|reflexivity].
        apply existsb_exists in E. destruct E as [w [Hin Hw]].
        rewrite (find_none _ _ Ef w Hin) in Hw. discriminate. }
      rewrite Hp. apply ids_unfocus_app.
  - unfold ids. induction (windows m) as [|w ws IH]; simpl; [reflexivity|].
    unfold has_id at 1. destruct (String.eqb (id w) i); simpl; rewrite IH;
      reflexivity.
Qed.

End WindowManagerFacts.

(* ================================================================== *)
(** * Properties of the desktop *)
(* ================================================================== *)

Module DesktopFacts.
Import WindowManager WindowManagerProps Desktop.

Lemma app_id_known icon : In (init_id (app icon)) app_ids.
Proof. destruct icon; simpl; auto. Qed.

Lemma allowed_keeps_known_ids m a :
  allowed a = true ->
  incl (ids (windows m)) app_ids ->
  incl (ids (windows (apply m (operation a)))) app_ids.
Proof.
  intros Ha H.
  destruct a as [icon|[window|i|i|i|i|i|i nx ny|i nw nh]]; try discriminate Ha;
    simpl; unfold_ops; simpl;
    try (rewrite ids_map; [exact H|];
         intros w; destruct (has_id i w); reflexivity).
  - destruct (find (has_id (init_id (app icon))) (windows m)) as [existing|].
    + destruct (isMinimized existing); (rewrite ids_map; [exact H|]);
        intros w; destruct (has_id (init_id (app icon)) w); reflexivity.
    + rewrite ids_unfocus_app. apply incl_app; [exact H|].
      intros j [Hj|[]]. subst j. apply app_id_known.
  - intros j Hj. apply H. unfold ids in *. apply in_map_iff in Hj.
    destruct Hj as [w [Hw Hin]]. apply filter_In in Hin.
    apply in_map_iff. exists w. tauto.
Qed.

Lemma run_known_ids actions m :
  forallb allowed actions = true ->
  incl (ids (windows m)) app_ids ->
  incl (ids (windows (run m (map operation actions)))) app_ids.
Proof.
  unfold run. revert m.
  induction actions as [|a actions IH]; intros m Ha Hm; simpl; [exact Hm|].
  simpl in Ha. apply andb_true_iff in Ha. destruct Ha as [Ha Hrest].
  apply IH; [exact Hrest|]. apply allowed_keeps_known_ids; assumption.
Qed.

(** Whatever the user does on the desktop (double-clicks on the three
    icons, and close, minimize, maximize, restore, focus, move and
    resize on any identifier), the registry holds at most one window
    per icon: its identifiers are pairwise distinct and among the three
    of the icons, so there are never more than three windows. *)
Theorem one_window_per_icon actions :
  forallb allowed actions = true ->
  NoDup (ids (windows (run initial (map operation actions)))) /\
  incl (ids (windows (run initial (map operation actions)))) app_ids /\
  List.length (windows (run initial (map operation actions))) <= 3.
Proof.
  intros Ha.
  assert (Hnd : NoDup (ids (windows (run initial (map operation actions))))).
  { change (distinct_ids (run initial (map operation actions))).
    apply (run_invariant distinct_ids); [apply apply_distinct_ids|].
    constructor. }
  assert (Hincl : incl (ids (windows (run initial (map operation actions))))
                       app_ids).
  { apply run_known_ids; [exact Ha|]. apply incl_nil_l. }
  split; [exact Hnd|]. split; [exact Hincl|].
  pose proof (NoDup_incl_length Hnd Hincl) as Hlen.
  unfold ids in Hlen. rewrite length_map in Hlen. exact Hlen.
Qed.

Lemma one_window_per_icon_witness :
  forallb allowed sample_session = true /\
  List.length (windows (run initial (map operation sample_session))) <= 3.
Proof.
  assert (H : forallb allowed sample_session = true) by reflexivity.
  split; [exact H|].
  exact (proj2 (proj2 (one_window_per_icon sample_session H))).
Defined.

End DesktopFacts.

(* ================================================================== *)
(** * Further properties of the relay endpoint *)
(* ================================================================== *)

Module RelayFacts.
Import JS Relay RelayProps.
Local Open Scope string_scope.

Lemma prefix_app a b : String.prefix a (a ++ b) = true.
Proof.
  induction a as [|c a IH]; simpl; [destruct b; reflexivity|].
  destruct (ascii_dec c c); [exact IH|contradiction].
Qed.

Lemma bind_ok {A B} (r : result A) (k : A -> result B) b :
  bind r k = Ok b -> exists a, r = Ok a /\ k a = Ok b.
Proof.
  destruct r as [a|]; simpl; [eauto|discriminate].
Qed.

Lemma filter_users_ok entries users :
  filter_users entries = Ok users ->
  existsb is_null entries = false /\ users = user_entries entries.
Proof.
  intros H. destruct (existsb is_null entries) eqn:E.
  - rewrite (filter_users_null _ E) in H. discriminate.
  - rewrite (filter_users_no_null _ E) in H. injection H as <-. auto.
Qed.

(** What [handle] returns as a stream, it returns for an array of
    entries without null whose last user entry has a content. *)
Lemma handle_stream body prompt :
  handle body = Ok (EventStream prompt) ->
  exists entries lastUserMessage text,
    get "messages" body = Some (Arr entries) /\
    existsb is_null entries = false /\
    pop (user_entries entries) = Some lastUserMessage /\
    content_length_defined lastUserMessage = Ok tt /\
    ToString_opt (get "content" lastUserMessage) = Some text /\
    String.prefix SYSTEM_PROMPT prompt = true /\
    endsWith (nl ++ nl ++ "User: " ++ text) prompt = true.
Proof.
  intros H.
  assert (Hb : body <> Null) by (intros ->; discriminate H).
  destruct (get "messages" body) as [[| | | |entries|]|] eqn:Hm;
    try (rewrite (handle_not_array body Hb) in H by (rewrite Hm; reflexivity);
         discriminate H).
  rewrite (handle_array _ _ Hm) in H.
  apply bind_ok in H. destruct H as [users [Hu H]].
  apply filter_users_ok in Hu. destruct Hu as [Hn ->].
  destruct (pop (user_entries entries)) as [lastUserMessage|] eqn:Hp;
    [|discriminate H].
  apply bind_ok in H. destruct H as [[] [Hc H]].
  apply bind_ok in H. destruct H as [turns [Ht H]].
  apply bind_ok in H. destruct H as [text [Hs H]].
  exists entries, lastUserMessage, text.
  destruct (ToString_opt (get "content" lastUserMessage)) as [text'|] eqn:Hts;
    [|discriminate Hs].
  injection Hs as ->.
  remember SYSTEM_PROMPT as instructions eqn:Hi in *. clear Hi.
  assert (Hprompt :
            prompt
            = if negb (join (nl ++ nl) turns =? "")
              then (instructions ++ nl ++ nl ++ "Previous conversation:" ++ nl
                    ++ join (nl ++ nl) turns)
                   ++ (nl ++ nl ++ "User: " ++ text)
              else instructions ++ (nl ++ nl ++ "User: " ++ text)).
  { injection H as <-. destruct (negb _); rewrite ?append_assoc; reflexivity. }
  clear H. rewrite Hprompt.
  repeat split; auto.
  - destruct (negb _); rewrite ?append_assoc; apply prefix_app.
  - destruct (negb _); apply endsWith_app.
Qed.

(** The agent query is invoked only for a request whose body is JSON
    with an array under messages that has no null entry and has a user
    entry, the last of which has a content, neither undefined nor null;
    the prompt then begins with the fixed instruction string and ends
    with that content as a User line. *)
Theorem agent_invoked_only_on_valid_request request prompt :
  POST request = EventStream prompt ->
  exists body entries lastUserMessage content text,
    request = Some body /\
    get "messages" body = Some (Arr entries) /\
    has_null_entry body = false /\
    lacks_user_message body = false /\
    pop (user_entries entries) = Some lastUserMessage /\
    get "content" lastUserMessage = Some content /\
    content <> Null /\
    ToString_opt (Some content) = Some text /\
    String.prefix SYSTEM_PROMPT prompt = true /\
    endsWith (nl ++ nl ++ "User: " ++ text) prompt = true.
Proof.
  unfold POST. intros H.
  destruct request as [body|]; [|discriminate H].
  simpl bind in H.
  destruct (handle body) as [response|] eqn:Hh; [|discriminate H].
  subst response.
  destruct (handle_stream _ _ Hh)
    as [entries [lastUserMessage [text [Hm [Hn [Hp [Hc [Ht [Hpre Hend]]]]]]]]].
  unfold content_length_defined in Hc.
  destruct (get "content" lastUserMessage) as [content|] eqn:Hg; [|discriminate Hc].
  exists body, entries, lastUserMessage, content, text.
  unfold has_null_entry, lacks_user_message. rewrite Hm.
  assert (Hu : existsb (fun m => is_string "user" (get "role" m)) entries = true).
  { destruct (existsb (fun m => is_string "user" (get "role" m)) entries) eqn:E;
      [reflexivity|].
    unfold user_entries in Hp. rewrite (filter_no_user _ E) in Hp.
    discriminate Hp. }
  rewrite Hu. repeat split; auto.
  intros ->. discriminate Hc.
Qed.

Lemma agent_invoked_only_on_valid_request_witness :
  exists prompt body entries lastUserMessage content text,
    POST (Some trailing_reply) = EventStream prompt /\
    Some trailing_reply = Some body /\
    get "messages" body = Some (Arr entries) /\
    has_null_entry body = false /\
    lacks_user_message body = false /\
    pop (user_entries entries) = Some lastUserMessage /\
    get "content" lastUserMessage = Some content /\
    content <> Null /\
    ToString_opt (Some content) = Some text /\
    String.prefix SYSTEM_PROMPT prompt = true /\
    endsWith (nl ++ nl ++ "User: " ++ text) prompt = true.
Proof.
  eexists.
  destruct (agent_invoked_only_on_valid_request (Some trailing_reply) _ eq_refl)
    as [body [entries [lastUserMessage [content [text H]]]]].
  exists body, entries, lastUserMessage, content, text.
  split; [reflexivity|exact H].
Defined.

(** A request that is not JSON, and a request whose last user entry
    has no content or null as content, are answered with status 500;
    the agent query is not invoked. *)
Theorem unusable_request_is_a_server_error :
  POST None = server_error /\
  forall body entries lastUserMessage,
    get "messages" body = Some (Arr entries) ->
    existsb is_null entries = false ->
    pop (user_entries entries) = Some lastUserMessage ->
    get "content" lastUserMessage = None \/
    get "content" lastUserMessage = Some Null ->
    POST (Some body) = server_error.
Proof.
  split; [reflexivity|].
  intros body entries lastUserMessage Hm Hn Hp Hc.
  unfold POST. simpl bind at 1. cbv beta.
  rewrite (handle_array _ _ Hm), (filter_users_no_null _ Hn).
  unfold bind at 1. unfold user_entries in Hp. rewrite Hp.
  unfold content_length_defined.
  destruct Hc as [Hc|Hc]; rewrite Hc; reflexivity.
Qed.

Lemma unusable_request_is_a_server_error_witness :
  get "messages" contentless
  = Some (Arr [message "user" "Hi"; Obj [("role", Str "user")]]) /\
  POST (Some contentless) = server_error.
Proof.
  split; [reflexivity|].
  exact (proj2 unusable_request_is_a_server_error contentless
           [message "user" "Hi"; Obj [("role", Str "user")]]
           (Obj [("role", Str "user")]) eq_refl eq_refl eq_refl
           (or_introl eq_refl)).
Defined.

(** For a list of role and content messages that ends with a message
    of the user, the endpoint answers with the stream, never with an
    error, and the prompt is the instruction string, then, only if
    there are prior turns, the Previous conversation header with each
    prior turn once as a User or Assistant line, then the last message
    as the final User line. *)
Theorem prompt_of_a_conversation prior final :
  POST (Some (request_of (map turn_value prior ++ [message "user" final])%list))
  = EventStream (spec_prompt prior final) /\
  (prior = [] ->
   spec_prompt prior final = SYSTEM_PROMPT ++ nl ++ nl ++ "User: " ++ final) /\
  (forall status text,
     POST (Some (request_of (map turn_value prior ++ [message "user" final])%list))
     <> JsonResponse status text).
Proof.
  split; [|split].
  - apply prompt_when_last_message_is_users.
  - intros ->. reflexivity.
  - intros status text. rewrite prompt_when_last_message_is_users.
    discriminate.
Qed.

(** ** Chunks *)

Lemma relay_events message : relay message = map data_event (events message).
Proof.
  destruct message as [[[[text|]|]|]|[blocks|]|tool time|subtype|]; simpl;
    try reflexivity.
  - induction blocks as [|[name|] blocks IH]; simpl; [reflexivity| |exact IH].
    rewrite IH. reflexivity.
  - destruct (subtype =? "success"); reflexivity.
Qed.

Lemma data_event_shape fields :
  String.prefix "data: " (data_event fields) = true /\
  endsWith (nl ++ nl) (data_event fields) = true /\
  data_event fields <> DONE.
Proof.
  unfold data_event. split; [apply prefix_app|]. split.
  - apply endsWith_extend. apply endsWith_extend. reflexivity.
  - simpl. intros H. discriminate H.
Qed.

(** Every chunk of the stream is a [data:] line followed by a blank
    line.  The [DONE] chunk is sent exactly once when the query is
    consumed to its end, as the last chunk, and never when it throws. *)
Theorem stream_framing messages outcome :
  Forall (fun chunk => String.prefix "data: " chunk = true /\
                       endsWith (nl ++ nl) chunk = true)
         (start messages outcome) /\
  count_occ string_dec (start messages outcome) DONE
  = match outcome with
    | Completed => 1
    | Threw => 0
    end /\
  ~ In DONE (flat_map relay messages).
Proof.
  assert (Hrel : Forall (fun chunk => String.prefix "data: " chunk = true /\
                                      endsWith (nl ++ nl) chunk = true /\
                                      chunk <> DONE)
                        (flat_map relay messages)).
  { induction messages as [|m ms IH]; simpl; [constructor|].
    apply Forall_app. split; [|exact IH].
    rewrite relay_events. apply Forall_map, Forall_forall.
    intros fields _. apply data_event_shape. }
  assert (Hnot : ~ In DONE (flat_map relay messages)).
  { intros Hin. rewrite Forall_forall in Hrel.
    destruct (Hrel _ Hin) as [_ [_ Hne]]. contradiction. }
  split; [|split; [|exact Hnot]].
  - unfold start. apply Forall_app. split.
    + revert Hrel. apply Forall_impl. tauto.
    + destruct outcome; repeat constructor.
  - unfold start. rewrite count_occ_app.
    rewrite (proj1 (count_occ_not_In string_dec _ _) Hnot).
    destruct outcome; reflexivity.
Qed.

End RelayFacts.

(* ================================================================== *)
(** * Further properties of the chat client *)
(* ================================================================== *)

Module ChatFacts.
Import JS Chat ChatProps.
Local Open Scope string_scope.

Section Reader.
Variable parse : string -> option value.
Variable sid : string.
Variable sent : list Message.
Variable now : Z.
Hypothesis fresh : Forall (fun msg => id msg <> sid) sent.

Lemma set_content_fresh text c :
  map (set_content sid text) (sent ++ [mkMessage sid assistant c now])%list
  = (sent ++ [mkMessage sid assistant text now])%list.
Proof.
  rewrite map_app. f_equal.
  - rewrite <- (map_id sent) at 2. apply map_ext_in. intros msg Hin.
    rewrite Forall_forall in fresh. specialize (fresh msg Hin).
    unfold set_content. apply String.eqb_neq in fresh. rewrite fresh.
    reflexivity.
  - simpl. unfold set_content. simpl. rewrite String.eqb_refl. reflexivity.
Qed.

Lemma handleLine_tail st line :
  tail_is_streamed sid sent now st ->
  tail_is_streamed sid sent now (handleLine parse sid st line).
Proof.
  unfold handleLine, tail_is_streamed. intros H.
  destruct (startsWith "data: " line); [|exact H].
  destruct (slice 6 line =? "[DONE]"); [exact H|].
  destruct (parse (slice 6 line)) as [parsed|]; [|exact H].
  destruct parsed; [exact H|..]; unfold apply_event;
    (destruct (is_string "text_delta" (get "type" _));
     [ destruct (ToString_opt (get "text" _)) as [text|]; [|exact H];
       simpl; rewrite H; apply set_content_fresh
     | destruct (is_string "tool_start" (get "type" _)); [exact H|];
       destruct (is_string "tool_progress" (get "type" _)); [exact H|];
       destruct (is_string "done" (get "type" _)); [exact H|];
       destruct (is_string "error" (get "type" _)); [|exact H];
       simpl; rewrite H; apply set_content_fresh ]).
Qed.

Lemma lines_tail st lines :
  tail_is_streamed sid sent now st ->
  tail_is_streamed sid sent now (fold_left (handleLine parse sid) lines st).
Proof.
  revert st. induction lines as [|line lines IH]; intros st H; simpl;
    [exact H|].
  apply IH, handleLine_tail, H.
Qed.

End Reader.

Lemma others_fresh sid sent :
  Forall (fun msg => id msg <> sid) sent -> without_placeholder sid sent = sent.
Proof.
  unfold without_placeholder. induction 1 as [|msg msgs Hm _ IH]; simpl;
    [reflexivity|].
  unfold is_placeholder at 1. apply String.eqb_neq in Hm. rewrite Hm. simpl.
  rewrite IH. reflexivity.
Qed.

Section Receive.
Variable parse : string -> option value.
Variable sid : string.
Variable sent : list Message.
Variable now : Z.
Variable chunks : list string.
Variable errorId : string.
Variable errorTime : Z.
Hypothesis fresh : Forall (fun msg => id msg <> sid) sent.

Lemma readLoop_tail :
  tail_is_streamed sid sent now
    (readLoop parse sid
       (mkLoop (sent ++ [placeholder sid now])%list None "" 0) chunks).
Proof.
  rewrite readLoop_lines. apply lines_tail; [exact fresh|]. reflexivity.
Qed.

Lemma receive_done_fresh :
  receive parse sid sent now chunks Done errorId errorTime
  = (sent ++
     if streamingContent
          (readLoop parse sid
             (mkLoop (sent ++ [placeholder sid now])%list None "" 0) chunks)
        =? ""
     then []
     else [mkMessage sid assistant
             (streamingContent
                (readLoop parse sid
                   (mkLoop (sent ++ [placeholder sid now])%list None "" 0)
                   chunks))
             now])%list.
Proof.
  pose proof readLoop_tail as Ht. unfold tail_is_streamed in Ht.
  unfold receive.
  destruct (streamingContent _ =? "") eqn:E; [|exact Ht].
  rewrite Ht.
  fold (without_placeholder sid
          (sent ++ [mkMessage sid assistant
                      (streamingContent
                         (readLoop parse sid
                            (mkLoop (sent ++ [placeholder sid now])%list None "" 0)
                            chunks)) now])%list).
  rewrite others_app, (others_fresh sid sent fresh).
  unfold without_placeholder, is_placeholder. simpl.
  rewrite String.eqb_refl. reflexivity.
Qed.

Lemma receive_failed_fresh :
  receive parse sid sent now chunks ReadFailed errorId errorTime
  = (sent ++
     [mkMessage sid assistant
        (streamingContent
           (readLoop parse sid
              (mkLoop (sent ++ [placeholder sid now])%list None "" 0) chunks))
        now;
      mkMessage errorId assistant
        "Sorry, I encountered an error. Please check your Claude credentials are configured correctly."
        errorTime])%list.
Proof.
  pose proof readLoop_tail as Ht. unfold tail_is_streamed in Ht.
  unfold receive. rewrite Ht, <- app_assoc. reflexivity.
Qed.

End Receive.

(** With a fresh identifier for the placeholder, a stream never
    rewrites or removes a message that was there before it.  Read to
    its end, it adds one assistant message that holds exactly the
    streamed content, or nothing when that content is empty.  When a
    read fails it adds that message, empty or not, and then the error
    message. *)
Theorem stream_adds_only_what_it_streamed
    parse sid sent now chunks errorId errorTime :
  Forall (fun msg => id msg <> sid) sent ->
  receive parse sid sent now chunks Done errorId errorTime
  = (sent ++
     if streamingContent
          (readLoop parse sid
             (mkLoop (sent ++ [placeholder sid now])%list None "" 0) chunks)
        =? ""
     then []
     else [mkMessage sid assistant
             (streamingContent
                (readLoop parse sid
                   (mkLoop (sent ++ [placeholder sid now])%list None "" 0)
                   chunks))
             now])%list /\
  receive parse sid sent now chunks ReadFailed errorId errorTime
  = (sent ++
     [mkMessage sid assistant
        (streamingContent
           (readLoop parse sid
              (mkLoop (sent ++ [placeholder sid now])%list None "" 0) chunks))
        now;
      mkMessage errorId assistant
        "Sorry, I encountered an error. Please check your Claude credentials are configured correctly."
        errorTime])%list.
Proof.
  intros Hfresh. split.
  - apply receive_done_fresh. exact Hfresh.
  - apply receive_failed_fresh. exact Hfresh.
Qed.

Lemma stream_adds_only_what_it_streamed_witness :
  Forall (fun msg => id msg <> "p1") asked /\
  receive JSON_parse "p1" asked 2000 [] ReadFailed "e1" 3000
  = (asked ++
     [mkMessage "p1" assistant "" 2000;
      mkMessage "e1" assistant
        "Sorry, I encountered an error. Please check your Claude credentials are configured correctly."
        3000])%list.
Proof.
  assert (H : Forall (fun msg => id msg <> "p1") asked)
    by (repeat constructor; discriminate).
  split; [exact H|].
  exact (proj2 (stream_adds_only_what_it_streamed JSON_parse "p1" asked 2000 []
                  "e1" 3000 H)).
Defined.

Lemma append_nil_r s : s ++ "" = s.
Proof.
  induction s as [|c s IH]; simpl; [reflexivity|]. rewrite IH. reflexivity.
Qed.

Lemma handleLine_grows parse sid st line :
  carries_error parse line = false ->
  exists more,
    streamingContent (handleLine parse sid st line) = streamingContent st ++ more.
Proof.
  unfold carries_error, applied_event, handleLine. intros He.
  destruct (startsWith "data: " line);
    [|exists ""; rewrite append_nil_r; reflexivity].
  destruct (slice 6 line =? "[DONE]");
    [exists ""; rewrite append_nil_r; reflexivity|].
  destruct (parse (slice 6 line)) as [parsed|];
    [|exists ""; rewrite append_nil_r; reflexivity].
  destruct parsed;
    [exists ""; rewrite append_nil_r; reflexivity|..]; unfold apply_event;
    (destruct (is_string "text_delta" (get "type" _));
     [ destruct (ToString_opt (get "text" _)) as [text|];
       [exists text; reflexivity|exists ""; rewrite append_nil_r; reflexivity]
     | rewrite He;
       destruct (is_string "tool_start" (get "type" _));
         [exists ""; rewrite append_nil_r; reflexivity|];
       destruct (is_string "tool_progress" (get "type" _));
         [exists ""; rewrite append_nil_r; reflexivity|];
       destruct (is_string "done" (get "type" _));
         exists ""; rewrite append_nil_r; reflexivity ]).
Qed.

(** As long as no error event is applied, text that was streamed is
    never lost or changed: after any further chunks the streamed
    content begins with what it was before. *)
Theorem streamed_content_only_grows parse sid st chunks :
  forallb (fun line => negb (carries_error parse line)) (lines_of chunks) = true ->
  exists more,
    streamingContent (readLoop parse sid st chunks) = streamingContent st ++ more.
Proof.
  rewrite readLoop_lines. generalize (lines_of chunks). intros lines.
  revert st. induction lines as [|line lines IH]; intros st H; simpl.
  - exists "". rewrite append_nil_r. reflexivity.
  - simpl in H. apply andb_true_iff in H. destruct H as [Hl H].
    apply negb_true_iff in Hl.
    destruct (handleLine_grows parse sid st line Hl) as [m1 H1].
    destruct (IH (handleLine parse sid st line) H) as [m2 H2].
    exists (m1 ++ m2). rewrite H2, H1.
    clear. induction (streamingContent st) as [|c t IHt]; simpl;
      [reflexivity|]. rewrite IHt. reflexivity.
Qed.

Lemma streamed_content_only_grows_witness :
  forallb (fun line => negb (carries_error JSON_parse line))
          (lines_of (Relay.start [Relay.StreamEventMessage
                                    (Relay.ContentBlockDelta
                                       (Some (Relay.TextDelta " a tracker.")))]
                                 Relay.Completed)) = true /\
  exists more,
    streamingContent
      (readLoop JSON_parse "p1" streaming
         (Relay.start [Relay.StreamEventMessage
                         (Relay.ContentBlockDelta
                            (Some (Relay.TextDelta " a tracker.")))]
                      Relay.Completed))
    = "Sentry is" ++ more.
Proof.
  assert (H : forallb (fun line => negb (carries_error JSON_parse line))
                (lines_of (Relay.start [Relay.StreamEventMessage
                                          (Relay.ContentBlockDelta
                                             (Some (Relay.TextDelta " a tracker.")))]
                                       Relay.Completed)) = true)
    by (vm_compute; reflexivity).
  split; [exact H|].
  exact (streamed_content_only_grows JSON_parse "p1" streaming _ H).
Defined.

End ChatFacts.

(* ================================================================== *)
(** * JSON texts of strings *)
(* ================================================================== *)

Module JSFacts.
Import JS RelayProps.
Local Open Scope string_scope.

Lemma lex_quote_char c :
  exists u,
    (forall t, lex_string (quote_char c ++ t) = cons_unit u (lex_string t)) /\
    (forall us, decode_units (u :: us) = String c (decode_units us)) /\
    has_LF (quote_char c) = false.
Proof.
  destruct c as [[] [] [] [] [] [] [] []];
    (eexists; split; [intros t; reflexivity|split; [intros us; reflexivity|reflexivity]]).
Qed.

Lemma has_LF_app a b : has_LF (a ++ b) = has_LF a || has_LF b.
Proof.
  induction a as [|c a IH]; simpl; [reflexivity|].
  rewrite IH, orb_assoc. reflexivity.
Qed.

Lemma lex_quote_chars s rest :
  exists us,
    lex_string (quote_chars s ++ String DQ rest) = Some (us, rest) /\
    decode_units us = s.
Proof.
  induction s as [|c s [us [Hl Hd]]]; simpl.
  - exists []. split; reflexivity.
  - destruct (lex_quote_char c) as [u [Hu [Hdu _]]].
    exists (u :: us). rewrite append_assoc, Hu, Hl. split; [reflexivity|].
    rewrite Hdu, Hd. reflexivity.
Qed.

Lemma quote_chars_one_line s : has_LF (quote_chars s) = false.
Proof.
  induction s as [|c s IH]; simpl; [reflexivity|].
  destruct (lex_quote_char c) as [_ [_ [_ H]]].
  rewrite has_LF_app, H, IH. reflexivity.
Qed.

Lemma quote_one_line s : has_LF (quote s) = false.
Proof.
  unfold quote. simpl. rewrite has_LF_app, quote_chars_one_line. reflexivity.
Qed.

Lemma quote_app s rest :
  quote s ++ rest = String DQ (quote_chars s ++ String DQ rest).
Proof.
  unfold quote. simpl. rewrite append_assoc. reflexivity.
Qed.

Lemma parse_value_quoted f v rest :
  parse_value (S f) (String DQ (quote_chars v ++ String DQ rest))
  = Some (Str v, rest).
Proof.
  destruct (lex_quote_chars v rest) as [us [Hl Hd]].
  simpl. rewrite Hl, Hd. reflexivity.
Qed.

Lemma parse_members_quoted f acc k r :
  parse_members (S f) acc (String DQ (quote_chars k ++ String DQ (String ":" r)))
  = match parse_value f r with
    | Some (v, r3) =>
        match skip_ws r3 with
        | String "," r4 => parse_members f (set_field k v acc) r4
        | String "}" r4 => Some (Obj (set_field k v acc), r4)
        | _ => None
        end
    | None => None
    end.
Proof.
  destruct (lex_quote_chars k (String ":" r)) as [us [Hl Hd]].
  simpl. rewrite Hl. simpl. rewrite Hd. reflexivity.
Qed.

Lemma field_text_app k v rest :
  field_text (str_field (k, v)) ++ rest
  = String DQ (quote_chars k ++
               String DQ (String ":"
                  (String DQ (quote_chars v ++ String DQ rest)))).
Proof.
  unfold field_text, str_field. simpl fst. simpl snd. simpl JSON_stringify.
  rewrite !append_assoc, !quote_app. reflexivity.
Qed.

Lemma join_cons x y ys :
  join "," (x :: y :: ys) = x ++ "," ++ join "," (y :: ys).
Proof. reflexivity. Qed.

Lemma parse_members_strings fields :
  forall f acc k v rest,
    (List.length fields < f)%nat ->
    parse_members (S f) acc
      (join "," (map field_text (map str_field ((k, v) :: fields))) ++ "}" ++ rest)
    = Some (Obj (fold_left (fun a kv => set_field (fst kv) (Str (snd kv)) a)
                           ((k, v) :: fields) acc), rest).
Proof.
  induction fields as [|[k' v'] fields IH]; intros f acc k v rest Hf;
    (destruct f as [|f]; [simpl in Hf; lia|]).
  - change (join "," (map field_text (map str_field [(k, v)])))
      with (field_text (str_field (k, v))).
    rewrite field_text_app, parse_members_quoted, parse_value_quoted.
    reflexivity.
  - rewrite !map_cons, join_cons, append_assoc, field_text_app.
    rewrite parse_members_quoted, parse_value_quoted.
    rewrite append_assoc.
    change (skip_ws ("," ++ ?x)) with (String "," x).
    cbv iota. rewrite <- !map_cons.
    simpl in Hf. rewrite (IH f); [reflexivity|lia].
Qed.

Lemma fold_set_fresh (fields : list (string * string)) acc :
  NoDup (map fst acc ++ map fst fields) ->
  fold_left (fun a kv => set_field (fst kv) (Str (snd kv)) a) fields acc
  = (acc ++ map str_field fields)%list.
Proof.
  revert acc. induction fields as [|[k v] fields IH]; intros acc Hnd; simpl.
  - rewrite app_nil_r. reflexivity.
  - assert (Hset : set_field k (Str v) acc = (acc ++ [(k, Str v)])%list).
    { assert (Hk : ~ In k (map fst acc)).
      { intros Hin. apply NoDup_remove_2 in Hnd. apply Hnd.
        apply in_or_app. left. exact Hin. }
      clear Hnd IH. induction acc as [|[k0 v0] acc IHa]; simpl; [reflexivity|].
      destruct (String.eqb k0 k) eqn:E.
      - exfalso. apply Hk. left. apply String.eqb_eq. exact E.
      - rewrite IHa; [reflexivity|]. intros Hin. apply Hk. right. exact Hin. }
    rewrite Hset, IH.
    + rewrite <- app_assoc. reflexivity.
    + rewrite map_app. simpl. rewrite <- app_assoc. exact Hnd.
Qed.

Lemma length_append a b : String.length (a ++ b) = (String.length a + String.length b)%nat.
Proof.
  induction a as [|c a IH]; simpl; [reflexivity|]. rewrite IH. reflexivity.
Qed.

Lemma join_length (fields : list (string * string)) :
  (List.length fields
   <= String.length (join "," (map field_text (map str_field fields))))%nat.
Proof.
  assert (Hone : forall kv, (1 <= String.length (field_text (str_field kv)))%nat).
  { intros kv. unfold field_text, quote. simpl. lia. }
  induction fields as [|[k v] [|kv fields] IH].
  - simpl. lia.
  - specialize (Hone (k, v)). simpl in *. lia.
  - rewrite !map_cons, join_cons, !length_append.
    rewrite !map_cons in IH. specialize (Hone (k, v)).
    simpl List.length in *. lia.
Qed.

Lemma string_object_round_trip (fields : list (string * string)) :
  NoDup (map fst fields) ->
  JSON_parse (JSON_stringify (Obj (map str_field fields)))
  = Some (Obj (map str_field fields)) /\
  has_LF (JSON_stringify (Obj (map str_field fields))) = false.
Proof.
  intros Hnd. split.
  - destruct fields as [|[k v] fields]; [reflexivity|].
    unfold JSON_parse.
    change (JSON_stringify (Obj (map str_field ((k, v) :: fields))))
      with ("{" ++ (join "," (map field_text (map str_field ((k, v) :: fields)))
                    ++ "}")).
    set (body := join "," (map field_text (map str_field ((k, v) :: fields)))).
    assert (Hlen : (S (List.length fields)
                    < 2 * String.length ("{" ++ body ++ "}") + 1)%nat).
    { pose proof (join_length ((k, v) :: fields)) as Hj. fold body in Hj.
      simpl String.length. rewrite length_append. simpl. simpl in Hj. lia. }
    replace (2 * String.length ("{" ++ body ++ "}") + 2)%nat
      with (S (2 * String.length ("{" ++ body ++ "}") + 1)) by lia.
    remember (2 * String.length ("{" ++ body ++ "}") + 1)%nat as fuel eqn:Hfuel.
    clear Hfuel. destruct fuel as [|fuel]; [lia|].
    assert (Hm : parse_members (S fuel) [] (body ++ "}")
                 = Some (Obj (map str_field ((k, v) :: fields)), "")).
    { unfold body.
      pose proof (fold_set_fresh ((k, v) :: fields) [] Hnd) as Hfold.
      rewrite app_nil_l in Hfold.
      assert (Hf : (List.length fields < fuel)%nat) by lia.
      pose proof (parse_members_strings fields fuel [] k v "" Hf) as Hparse.
      change ("}" ++ "") with "}" in Hparse.
      rewrite Hparse, Hfold. reflexivity. }
    assert (Hstart : exists tail, body ++ "}" = String DQ tail).
    { unfold body. destruct fields as [|kv fields].
      - change (join "," (map field_text (map str_field [(k, v)])))
          with (field_text (str_field (k, v))).
        rewrite field_text_app. eauto.
      - rewrite !map_cons, join_cons, append_assoc, field_text_app. eauto. }
    destruct Hstart as [tail Htail].
    change (parse_value (S (S fuel)) ("{" ++ body ++ "}"))
      with (match skip_ws (body ++ "}") with
            | String "}" r => Some (Obj [], r)
            | _ => parse_members (S fuel) [] (body ++ "}")
            end).
    rewrite Hm. rewrite Htail. reflexivity.
  - change (JSON_stringify (Obj (map str_field fields)))
      with ("{" ++ (join "," (map field_text (map str_field fields)) ++ "}")).
    simpl. rewrite has_LF_app. simpl. rewrite orb_false_r.
    induction fields as [|[k v] [|kv fields] IH].
    + reflexivity.
    + simpl. unfold field_text. simpl. rewrite !has_LF_app, quote_chars_one_line.
      simpl. rewrite has_LF_app, quote_chars_one_line. reflexivity.
    + rewrite !map_cons, join_cons, !has_LF_app.
      rewrite !map_cons in IH. rewrite IH.
      * unfold field_text, str_field. simpl.
        rewrite !has_LF_app, quote_chars_one_line.
        simpl. rewrite has_LF_app, quote_chars_one_line. reflexivity.
      * simpl in Hnd. apply NoDup_cons_iff in Hnd. apply Hnd.
Qed.

End JSFacts.

(* ================================================================== *)
(** * Properties of relay and client together *)
(* ================================================================== *)

Module ProtocolFacts.
Import JS Relay RelayProps RelayFacts JSFacts Chat ChatProps ChatFacts Protocol.
Local Open Scope string_scope.

(** ** What the relay writes, the client reads *)

Lemma two_strings_survive k1 v1 k2 v2 :
  k1 <> k2 -> survives JSON_parse [(k1, Str v1); (k2, Str v2)].
Proof.
  intros Hne.
  apply (string_object_round_trip [(k1, v1); (k2, v2)]).
  simpl. constructor.
  - intros [H|[]]. apply Hne. symmetry. exact H.
  - constructor; [intros []|constructor].
Qed.

Lemma one_string_survives k v : survives JSON_parse [(k, Str v)].
Proof.
  apply (string_object_round_trip [(k, v)]).
  simpl. constructor; [intros []|constructor].
Qed.

(** Every text_delta, tool_start, done and error event the relay
    writes is read back by the client as it was written, whatever
    characters the text or the tool name holds: the JSON text has no
    line feed, so the split into lines keeps it whole, and it parses
    to the object that was stringified.  The same holds for the error
    event that closes the stream of a query that throws. *)
Theorem string_events_survive message outcome :
  is_progress message = false ->
  Forall (survives JSON_parse) (events message) /\
  Forall (survives JSON_parse) (closing_events outcome).
Proof.
  intros Hp. split.
  - destruct message as [[[[text|]|]|]|[blocks|]|tool time|subtype|]; simpl;
      try discriminate Hp; try (constructor; fail).
    + constructor; [apply two_strings_survive; discriminate|constructor].
    + clear Hp. induction blocks as [|[name|] blocks IH]; simpl;
        [constructor| |exact IH].
      constructor; [apply two_strings_survive; discriminate|exact IH].
    + destruct (subtype =? "success");
        (constructor; [|constructor]);
        [apply one_string_survives|apply two_strings_survive; discriminate].
  - destruct outcome; simpl; [constructor|].
    constructor; [apply two_strings_survive; discriminate|constructor].
Qed.

Lemma string_events_survive_witness :
  is_progress
    (StreamEventMessage
       (ContentBlockDelta (Some (TextDelta ("a" ++ nl ++ quote "b"))))) = false /\
  Forall (survives JSON_parse)
    (events (StreamEventMessage
               (ContentBlockDelta (Some (TextDelta ("a" ++ nl ++ quote "b")))))).
Proof.
  split; [reflexivity|].
  exact (proj1 (string_events_survive
                  (StreamEventMessage
                     (ContentBlockDelta (Some (TextDelta ("a" ++ nl ++ quote "b")))))
                  Completed eq_refl)).
Defined.

(** ** Chunks as the client handles them *)

Lemma split_lines_line s t :
  has_LF s = false -> split_lines (s ++ nl ++ t) = s :: split_lines t.
Proof.
  change (nl ++ t) with (String LF t).
  induction s as [|c s IH]; simpl; intros H.
  - reflexivity.
  - apply orb_false_iff in H. destruct H as [Hc Hs].
    rewrite Hc, (IH Hs). reflexivity.
Qed.

Section Reader.
Variable parse : string -> option value.
Variable sid : string.

Lemma handleLine_empty st : handleLine parse sid st "" = st.
Proof. reflexivity. Qed.

Lemma handleChunk_DONE st : handleChunk parse sid st DONE = st.
Proof. reflexivity. Qed.

Lemma handleLine_event st fields :
  parse (JSON_stringify (Obj fields)) = Some (Obj fields) ->
  handleLine parse sid st ("data: " ++ JSON_stringify (Obj fields))
  = match apply_event sid (Obj fields) st with
    | Some st' => st'
    | None => st
    end.
Proof.
  intros Hparse.
  assert (Hdone : (JSON_stringify (Obj fields) =? "[DONE]") = false)
    by reflexivity.
  remember (JSON_stringify (Obj fields)) as text eqn:Htext. clear Htext.
  unfold handleLine, startsWith. rewrite prefix_app.
  change (slice 6 ("data: " ++ text)) with text.
  rewrite Hdone, Hparse. reflexivity.
Qed.

Lemma handleChunk_event st fields :
  survives parse fields ->
  handleChunk parse sid st (data_event fields)
  = match apply_event sid (Obj fields) st with
    | Some st' => st'
    | None => st
    end.
Proof.
  intros [Hparse Hline]. unfold handleChunk, data_event.
  rewrite <- append_assoc, split_lines_line.
  - change (split_lines nl) with ["" ; ""].
    change (fold_left (handleLine parse sid)
              [("data: " ++ JSON_stringify (Obj fields)); ""; ""] st)
      with (handleLine parse sid
              (handleLine parse sid
                 (handleLine parse sid st
                    ("data: " ++ JSON_stringify (Obj fields))) "") "").
    rewrite !handleLine_empty. apply handleLine_event. exact Hparse.
  - change (has_LF ("data: " ++ JSON_stringify (Obj fields)))
      with (has_LF (JSON_stringify (Obj fields))).
    exact Hline.
Qed.

(** The streamed content after the chunks of one message. *)
Lemma content_after_message st message :
  Forall (survives parse) (events message) ->
  streamingContent (fold_left (handleChunk parse sid) (relay message) st)
  = text_after message (streamingContent st).
Proof.
  rewrite relay_events.
  destruct message as [[[[text|]|]|]|[blocks|]|tool time|subtype|]; simpl;
    intros H; try reflexivity.
  - apply Forall_inv in H. rewrite (handleChunk_event _ _ H). reflexivity.
  - revert st H. induction blocks as [|[name|] blocks IH]; intros st H; simpl;
      [reflexivity| |apply IH; exact H].
    simpl in H. rewrite (handleChunk_event _ _ (Forall_inv H)).
    rewrite IH by exact (Forall_inv_tail H). reflexivity.
  - apply Forall_inv in H. rewrite (handleChunk_event _ _ H).
    simpl. destruct (currentTool st); reflexivity.
  - destruct (subtype =? "success"); simpl in *;
      apply Forall_inv in H; rewrite (handleChunk_event _ _ H); reflexivity.
Qed.

Lemma content_after_messages messages st :
  Forall (survives parse) (flat_map events messages) ->
  streamingContent (readLoop parse sid st (flat_map relay messages))
  = fold_left (fun text m => text_after m text) messages (streamingContent st).
Proof.
  revert st. induction messages as [|m ms IH]; intros st H; simpl;
    [reflexivity|].
  simpl in H. apply Forall_app in H. destruct H as [Hm Hms].
  rewrite readLoop_app, IH by exact Hms.
  unfold readLoop at 1. rewrite content_after_message by exact Hm.
  reflexivity.
Qed.

Lemma content_after_stream messages outcome st :
  Forall (survives parse) (all_events messages outcome) ->
  streamingContent st = "" ->
  streamingContent (readLoop parse sid st (start messages outcome))
  = relayed_text messages outcome.
Proof.
  unfold all_events, start. intros H Hs.
  apply Forall_app in H. destruct H as [Hm Hc].
  rewrite readLoop_app.
  destruct outcome; simpl.
  - rewrite handleChunk_DONE, content_after_messages, Hs by exact Hm.
    reflexivity.
  - simpl in Hc. apply Forall_inv in Hc.
    unfold stream_error. rewrite (handleChunk_event _ _ Hc). reflexivity.
Qed.

End Reader.

(** ** The text reaches the user *)

(** When the chunks arrive as the relay enqueued them and the events
    survive the wire, the client ends with the messages it had and, if
    any text was relayed, one assistant message that holds it: the
    text deltas of the agent in their order, replaced by the apology
    when the agent reports a failure or the query throws. *)
Theorem client_shows_the_relayed_text
    parse sid sent now messages outcome errorId errorTime :
  Forall (fun msg => id msg <> sid) sent ->
  Forall (survives parse) (all_events messages outcome) ->
  receive parse sid sent now (start messages outcome) Done errorId errorTime
  = (sent ++
     if relayed_text messages outcome =? ""
     then []
     else [mkMessage sid assistant (relayed_text messages outcome) now])%list.
Proof.
  intros Hfresh Hs.
  rewrite receive_done_fresh by exact Hfresh.
  rewrite (content_after_stream parse sid messages outcome
             (mkLoop (sent ++ [placeholder sid now])%list None "" 0) Hs eq_refl).
  reflexivity.
Qed.

Lemma client_shows_the_relayed_text_witness :
  Forall (fun msg => id msg <> "p1") asked /\
  Forall (survives JSON_parse)
         (all_events (fst (sample_agent "")) (snd (sample_agent ""))) /\
  receive JSON_parse "p1" asked 2000
          (start (fst (sample_agent "")) (snd (sample_agent ""))) Done "e1" 3000
  = (asked ++
     [mkMessage "p1" assistant ("Sentry is an error" ++ nl ++ "tracker.") 2000])%list.
Proof.
  assert (H1 : Forall (fun msg => id msg <> "p1") asked)
    by (repeat constructor; discriminate).
  assert (H2 : Forall (survives JSON_parse)
                      (all_events (fst (sample_agent "")) (snd (sample_agent ""))))
    by (repeat (constructor; [split; vm_compute; reflexivity|]); constructor).
  split; [exact H1|]. split; [exact H2|].
  exact (client_shows_the_relayed_text JSON_parse "p1" asked 2000
           (fst (sample_agent "")) (snd (sample_agent "")) "e1" 3000 H1 H2).
Defined.

Lemma wire_turns msgs :
  map Submit.wire msgs = map turn_value (map turn_of msgs).
Proof.
  rewrite map_map. apply map_ext. intros m. reflexivity.
Qed.

Lemma request_prompt f c :
  POST (Some (Submit.request_body f c))
  = EventStream (spec_prompt (map turn_of (Submit.messages c))
                             (trim (Submit.input c))).
Proof.
  unfold Submit.request_body. rewrite map_app, wire_turns.
  apply (prompt_when_last_message_is_users
           (map turn_of (Submit.messages c)) (trim (Submit.input c))).
Qed.

(** The request the client sends is never refused by the endpoint's
    validation: its last message is the user's, and the prompt the
    agent gets is the instruction string, the messages shown so far as
    Role: content lines, and the trimmed input as the final User
    line. *)
Theorem client_request_is_accepted f c :
  POST (Some (Submit.request_body f c))
  = EventStream (spec_prompt (map turn_of (Submit.messages c))
                             (trim (Submit.input c))) /\
  lacks_user_message (Submit.request_body f c) = false /\
  has_null_entry (Submit.request_body f c) = false.
Proof.
  split; [apply request_prompt|]. split.
  - unfold lacks_user_message, Submit.request_body. simpl get.
    rewrite map_app, existsb_app. simpl. rewrite orb_true_r. reflexivity.
  - unfold has_null_entry, Submit.request_body. simpl get.
    induction (Submit.messages c ++ [Submit.userMessage f c])%list
      as [|m ms IH]; simpl; [reflexivity|exact IH].
Qed.

(** One round of the conversation over a transport that hands the
    client each chunk as the endpoint enqueued it and then ends the
    body: for a non-blank input while nothing is loading, a fresh
    placeholder identifier and events that survive the wire, the client
    ends with the messages it had, the user's message with the trimmed
    input, and the assistant's message with the text the agent relayed
    for the prompt built from them (none if that text is empty); the
    input is cleared, loading is over and no tool status is left. *)
Theorem conversation_round parse agent deliver f c :
  trim (Submit.input c) <> "" ->
  Submit.isLoading c = false ->
  Forall (fun msg => id msg <> Submit.streamingMessageId f)
         (Submit.messages c ++ [Submit.userMessage f c])%list ->
  Forall (survives parse)
         (all_events
            (fst (agent (spec_prompt (map turn_of (Submit.messages c))
                                     (trim (Submit.input c)))))
            (snd (agent (spec_prompt (map turn_of (Submit.messages c))
                                     (trim (Submit.input c)))))) ->
  deliver (start
             (fst (agent (spec_prompt (map turn_of (Submit.messages c))
                                      (trim (Submit.input c)))))
             (snd (agent (spec_prompt (map turn_of (Submit.messages c))
                                      (trim (Submit.input c))))))
  = (start
       (fst (agent (spec_prompt (map turn_of (Submit.messages c))
                                (trim (Submit.input c)))))
       (snd (agent (spec_prompt (map turn_of (Submit.messages c))
                                (trim (Submit.input c))))),
     Some Done) ->
  exchange parse agent deliver f c
  = Submit.mkComponent
      ((Submit.messages c ++ [Submit.userMessage f c]) ++
       if relayed_text
            (fst (agent (spec_prompt (map turn_of (Submit.messages c))
                                     (trim (Submit.input c)))))
            (snd (agent (spec_prompt (map turn_of (Submit.messages c))
                                     (trim (Submit.input c)))))
          =? ""
       then []
       else [mkMessage (Submit.streamingMessageId f) assistant
               (relayed_text
                  (fst (agent (spec_prompt (map turn_of (Submit.messages c))
                                           (trim (Submit.input c)))))
                  (snd (agent (spec_prompt (map turn_of (Submit.messages c))
                                           (trim (Submit.input c))))))
               (Submit.streamingTime f)])%list
      "" false None.
Proof.
  intros Hinput Hload Hfresh Hs Hd.
  unfold exchange, serve. rewrite request_prompt.
  destruct (agent _) as [messages outcome]. simpl fst in *. simpl snd in *.
  rewrite Hd.
  unfold Submit.handleSubmit.
  apply String.eqb_neq in Hinput. rewrite Hinput, Hload. simpl orb. cbv iota.
  f_equal.
  rewrite receive_done_fresh by exact Hfresh.
  rewrite (content_after_stream parse (Submit.streamingMessageId f)
             messages outcome
             (mkLoop ((Submit.messages c ++ [Submit.userMessage f c])
                      ++ [placeholder (Submit.streamingMessageId f)
                                      (Submit.streamingTime f)])%list
                     None "" 0) Hs eq_refl).
  reflexivity.
Qed.

Lemma conversation_round_witness :
  trim (Submit.input Submit.typed) <> "" /\
  Submit.messages
    (exchange JSON_parse sample_agent as_enqueued Submit.sample_fresh Submit.typed)
  = [welcome;
     mkMessage "u1" user "What is Sentry?" 1000;
     mkMessage "p1" assistant ("Sentry is an error" ++ nl ++ "tracker.") 2000].
Proof.
  assert (H1 : trim (Submit.input Submit.typed) <> "") by discriminate.
  assert (H3 : Forall (fun msg => id msg <> Submit.streamingMessageId Submit.sample_fresh)
                 (Submit.messages Submit.typed
                  ++ [Submit.userMessage Submit.sample_fresh Submit.typed])%list)
    by (repeat constructor; discriminate).
  assert (H4 : Forall (survives JSON_parse)
                 (all_events
                    (fst (sample_agent
                            (spec_prompt (map turn_of (Submit.messages Submit.typed))
                                         (trim (Submit.input Submit.typed)))))
                    (snd (sample_agent
                            (spec_prompt (map turn_of (Submit.messages Submit.typed))
                                         (trim (Submit.input Submit.typed)))))))
    by (repeat (constructor; [split; vm_compute; reflexivity|]); constructor).
  split; [exact H1|].
  exact (f_equal Submit.messages
           (conversation_round JSON_parse sample_agent as_enqueued
              Submit.sample_fresh Submit.typed H1 eq_refl H3 H4 eq_refl)).
Defined.

(** The condition on the transport is needed: when every chunk arrives
    cut in two, no line of it is an event, and the client ends with no
    answer at all. *)
Lemma halved_chunks_lose_the_answer :
  Submit.messages
    (exchange JSON_parse sample_agent halved Submit.sample_fresh Submit.typed)
  = [welcome; mkMessage "u1" user "What is Sentry?" 1000].
Proof.
  vm_compute. reflexivity.
Qed.

End ProtocolFacts.

(* ================================================================== *)
(** * Properties of a submission *)
(* ================================================================== *)

Module SubmitFacts.
Import JS Chat ChatFacts Submit.
Local Open Scope string_scope.




End SubmitFacts.
